(** * A DQN agent for Atari Breakout: replay memory, exploration schedule
      and the training loop of [agent_trainer.py] / [renderer.py].

    The two scripts under [src/dqn] are embedded as pure functions over an
    explicit world state.  The module they import as [dqn] (replay memory,
    action selector, network) is not part of the sources; its replay memory
    and action selector are modelled from the written specification, and
    the network, optimizer, environment and random source are interfaces
    (type classes) that the scripts only call. *)

From Stdlib Require Import ZArith NArith QArith Qminmax Qabs Lia Lqa String.
From stdpp Require Import base option list strings gmap.

Open Scope nat_scope.

(** ** Errors raised by the modelled code *)

Inductive error : Type :=
| ConfigurationError
| InvalidSampleSize
| IndexError
| ZeroDivisionError
| RuntimeError
| ValueError
| UnboundLocalError
| FileNotFoundError.

(** A computation that either returns or raises. *)
Inductive result (A : Type) : Type :=
| Ok (a : A)
| Raise (e : error).
Arguments Ok {A} a.
Arguments Raise {A} e.

Definition rbind {A B} (r : result A) (k : A -> result B) : result B :=
  match r with
  | Ok a => k a
  | Raise e => Raise e
  end.

Fixpoint rmapM {A B} (f : A -> result B) (l : list A) : result (list B) :=
  match l with
  | [] => Ok []
  | x :: xs =>
      rbind (f x) (fun y => rbind (rmapM f xs) (fun ys => Ok (y :: ys)))
  end.

(** ** The random source

    Python's [random] / [torch.randint] as an explicit generator state. *)

Class RandomSource (Rng : Type) : Type := {
  (** a uniform value in [0, 1) *)
  rs_random : Rng -> Q * Rng;
  (** a uniform integer in [0, high) *)
  rs_randint : Rng -> nat -> nat * Rng;
  rs_randint_lt : forall g high, 0 < high -> (rs_randint g high).1 < high
}.

(** [count] successive draws below [high]. *)
Fixpoint rs_draws `{RandomSource Rng} (g : Rng) (high count : nat)
  : list nat * Rng :=
  match count with
  | 0 => ([], g)
  | S k =>
      let '(i, g1) := rs_randint g high in
      let '(rest, g2) := rs_draws g1 high k in
      (i :: rest, g2)
  end.

(** ** Replay memory *)

Module ReplayMemory.

Section Memory.

Context {Frame : Type}.

(** Modelled from the spec: the class [ReplayMemory] of the absent [dqn]
    module.  A fixed capacity, a logical size, a write cursor and parallel
    pre-allocated storage slots; every state slot holds a sequence of
    [stack_size + 1] consecutive frames. *)
Record t : Type := mk {
  capacity : nat;
  stack_size : nat;
  size : nat;
  cursor : nat;
  m_states : list (list Frame);
  m_actions : list nat;
  m_rewards : list Q;
  m_dones : list bool
}.

(** Modelled from the spec: construction pre-allocates [capacity] slots
    filled with the zero frame and fails fast on a capacity that is not
    positive. *)
Definition create (zero : Frame) (cap frames_per_slot : nat) : result t :=
  if cap =? 0 then Raise ConfigurationError
  else Ok {| capacity := cap;
             stack_size := frames_per_slot - 1;
             size := 0;
             cursor := 0;
             m_states := replicate cap (replicate frames_per_slot zero);
             m_actions := replicate cap 0;
             m_rewards := replicate cap 0%Q;
             m_dones := replicate cap false |}.

(** Modelled from the spec: [__len__] is the logical size. *)
Definition len (m : t) : Z := Z.of_nat (size m).

(** Modelled from the spec: [push] writes the tuple at the cursor slot,
    overwriting any prior occupant, advances the cursor circularly and
    increments the size up to the capacity. *)
Definition push (m : t) (frames : list Frame) (action : nat) (reward : Q)
    (done : bool) : t :=
  {| capacity := capacity m;
     stack_size := stack_size m;
     size := Nat.min (S (size m)) (capacity m);
     cursor := S (cursor m) mod capacity m;
     m_states := <[cursor m := frames]> (m_states m);
     m_actions := <[cursor m := action]> (m_actions m);
     m_rewards := <[cursor m := reward]> (m_rewards m);
     m_dones := <[cursor m := done]> (m_dones m) |}.

(** One stored experience, as [push] receives it. *)
Record transition : Type := Transition {
  tr_frames : list Frame;
  tr_action : nat;
  tr_reward : Q;
  tr_done : bool
}.

Definition push_tr (m : t) (x : transition) : t :=
  push m (tr_frames x) (tr_action x) (tr_reward x) (tr_done x).

Definition push_all (m : t) (xs : list transition) : t :=
  fold_left push_tr xs m.

(** A sampled batch: parallel lists, one entry per drawn index. *)
Record batch : Type := Batch {
  b_state : list (list Frame);
  b_action : list nat;
  b_reward : list Q;
  b_next_state : list (list Frame);
  b_done : list bool
}.

(** The first and the last [stack_size] frames of a stored sequence. *)
Definition state_of (stack : nat) (frames : list Frame) : list Frame :=
  take stack frames.
Definition next_state_of (stack : nat) (frames : list Frame) : list Frame :=
  drop (length frames - stack) frames.

Definition slot (m : t) (i : nat) : result transition :=
  match m_states m !! i, m_actions m !! i, m_rewards m !! i, m_dones m !! i with
  | Some s, Some a, Some r, Some d => Ok (Transition s a r d)
  | _, _, _, _ => Raise IndexError
  end.

Definition batch_of (stack : nat) (xs : list transition) : batch :=
  {| b_state := map (fun x => state_of stack (tr_frames x)) xs;
     b_action := map tr_action xs;
     b_reward := map tr_reward xs;
     b_next_state := map (fun x => next_state_of stack (tr_frames x)) xs;
     b_done := map tr_done xs |}.

(** Modelled from the spec: [sample] rejects a batch size that is not
    positive or exceeds the current size, then draws [batch_size] indices
    with replacement from [0, size) and slices every selected slot. *)
Definition sample `{RandomSource Rng} (m : t) (batch_size : Z) (g : Rng)
  : result batch * Rng :=
  if ((batch_size <=? 0) || (len m <? batch_size))%Z
  then (Raise InvalidSampleSize, g)
  else
    let '(idx, g') := rs_draws g (size m) (Z.to_nat batch_size) in
    (rbind (rmapM (slot m) idx) (fun xs => Ok (batch_of (stack_size m) xs)), g').

(** The indices a call of [sample] draws. *)
Definition drawn `{RandomSource Rng} (m : t) (batch_size : Z) (g : Rng)
  : list nat :=
  (rs_draws g (size m) (Z.to_nat batch_size)).1.

(** Well-formedness kept by [create] and [push]. *)
Record wf (m : t) : Prop := {
  wf_cap : 0 < capacity m;
  wf_size : size m <= capacity m;
  wf_cursor : cursor m < capacity m;
  wf_cursor_size : cursor m <= size m;
  wf_states : length (m_states m) = capacity m;
  wf_actions : length (m_actions m) = capacity m;
  wf_rewards : length (m_rewards m) = capacity m;
  wf_dones : length (m_dones m) = capacity m
}.

End Memory.

Arguments t : clear implicits.
Arguments transition : clear implicits.
Arguments batch : clear implicits.

End ReplayMemory.

(** ** Action selection *)

(** Python's [/] on numbers: division by zero raises. *)
Definition checked_div (a b : Q) : result Q :=
  if Qeq_bool b 0 then Raise ZeroDivisionError else Ok (a / b)%Q.

(** Index of the largest entry scanning left to right; an entry replaces
    the running best only when strictly larger, so the lowest index wins
    a tie. *)
Fixpoint argmax_from (best_i : nat) (best : Q) (i : nat) (l : list Q) : nat :=
  match l with
  | [] => best_i
  | x :: xs =>
      if Qle_bool x best then argmax_from best_i best (S i) xs
      else argmax_from i x (S i) xs
  end.

Definition argmax (l : list Q) : result nat :=
  match l with
  | [] => Raise RuntimeError
  | x :: xs => Ok (argmax_from 0 x 1 xs)
  end.

(** The network collaborator: a forward pass giving one value estimate per
    action, fresh construction, weight initialisation, and the gradient of
    a scalar loss with respect to the parameters (autograd). *)
Class QNetwork (Net Frame : Type) : Type := {
  dqn_new : nat -> Net;
  forward : Net -> list Frame -> list Q;
  init_weights : Net -> Net;
  backward : (Net -> Q) -> Net -> list Q
}.

Module ActionSelector.

(** Modelled from the spec: the attributes of [ActionSelector] of the
    absent [dqn] module (the policy network is read from the world at each
    call, since the selector holds it by reference). *)
Record t : Type := mk {
  eps_start : Q;
  eps_end : Q;
  n_decay : N;
  n_warmup : N;
  n_actions : nat
}.

(** Modelled from the spec: the effective epsilon at a global step, a
    linear decay from [eps_start] to [eps_end] over [n_decay] steps,
    clamped to [eps_end] thereafter. *)
Definition effective_epsilon (s : t) (global_step : N) : result Q :=
  if (n_decay s <=? global_step)%N then Ok (eps_end s)
  else
    rbind (checked_div (inject_Z (Z.of_N global_step))
                       (inject_Z (Z.of_N (n_decay s))))
          (fun frac => Ok (eps_start s - (eps_start s - eps_end s) * frac)%Q).

(** Modelled from the spec: the step-count test of the warm-up window. *)
Definition warmup_window (s : t) (global_step : N) : bool :=
  (global_step <? n_warmup s)%N.

(** Modelled from the spec: the forced-random override, taken inside the
    warm-up window or when exploring is not enabled. *)
Definition forced_random (s : t) (global_step : N) (exploring_enabled : bool)
  : bool :=
  warmup_window s global_step || negb exploring_enabled.

(** Modelled from the spec: [select_action(state, global_step,
    exploring_enabled)] returning the chosen action and the epsilon used. *)
Definition select_action `{RandomSource Rng} `{QNetwork Net Frame}
    (s : t) (net : Net) (state : list Frame) (global_step : N)
    (exploring_enabled : bool) (g : Rng) : result (nat * Q) * Rng :=
  match effective_epsilon s global_step with
  | Raise e => (Raise e, g)
  | Ok eps =>
      let '(u, g1) := rs_random g in
      if forced_random s global_step exploring_enabled
         || negb (Qle_bool eps u)
      then
        let '(a, g2) := rs_randint g1 (n_actions s) in
        (Ok (a, eps), g2)
      else (rbind (argmax (forward net state)) (fun a => Ok (a, eps)), g1)
  end.

End ActionSelector.

(** ** The remaining collaborators *)

(** Which [wrap_deepmind] view of the raw emulator a call goes through:
    the training loop wraps with [episode_life] and [clip_rewards], the
    evaluation runs wrap with the defaults. *)
Inductive wrapping : Type := TrainWrap | EvalWrap.

Class Environment (Env Obs : Type) : Type := {
  wrap_deepmind : wrapping -> Env -> Env;
  env_reset : wrapping -> Env -> Env * Obs;
  env_step : wrapping -> Env -> nat -> Env * (Obs * Q * bool);
  env_render : Env -> Obs;
  action_space_n : Env -> nat
}.

Class FrameCodec (Obs Frame : Type) : Type := {
  get_frame_tensor : Obs -> Frame
}.

Class Optimizer (Opt Net : Type) : Type := {
  adam : Net -> Q -> Q -> Opt;
  (** [optimizer.step()] on the gradients left in the parameters *)
  opt_step : Opt -> Net -> list Q -> Opt * Net
}.

(** [collections.deque(maxlen=n).append]: the oldest entry falls out once
    the window is full. *)
Definition deque_append {A} (maxlen : nat) (d : list A) (x : A) : list A :=
  drop (length (d ++ [x]) - maxlen) (d ++ [x]).

(** ** World state and the monad of the scripts *)

Record world (Rng Env Frame Net Opt : Type) : Type := World {
  w_env : Env;
  w_rng : Rng;
  w_memory : ReplayMemory.t Frame;
  w_policy : Net;
  w_target : Net;
  w_optimizer : Opt;
  (** the checkpoint files on disk, by path *)
  w_files : gmap string Net;
  (** [score_record.txt]: mean reward, step, epsilon *)
  w_score_log : list (Q * N * Q);
  (** ghost: the memory size seen by each call of [memory.sample] *)
  w_sample_calls : list nat;
  (** ghost: the step and flag passed to each call of [select_action] *)
  w_select_calls : list (N * bool)
}.
Arguments World {Rng Env Frame Net Opt}.
Arguments w_env {Rng Env Frame Net Opt}.
Arguments w_rng {Rng Env Frame Net Opt}.
Arguments w_memory {Rng Env Frame Net Opt}.
Arguments w_policy {Rng Env Frame Net Opt}.
Arguments w_target {Rng Env Frame Net Opt}.
Arguments w_optimizer {Rng Env Frame Net Opt}.
Arguments w_files {Rng Env Frame Net Opt}.
Arguments w_score_log {Rng Env Frame Net Opt}.
Arguments w_sample_calls {Rng Env Frame Net Opt}.
Arguments w_select_calls {Rng Env Frame Net Opt}.

(** How a script fragment ends: it returns, raises, or is still looping
    when the fuel of an unbounded [while] runs out. *)
Inductive outcome (A : Type) : Type :=
| Returned (a : A)
| Raised (e : error)
| OutOfFuel.
Arguments Returned {A} a.
Arguments Raised {A} e.
Arguments OutOfFuel {A}.

Definition M (W A : Type) : Type := W -> outcome A * W.

Definition ret {W A} (a : A) : M W A := fun w => (Returned a, w).
Definition raise {W A} (e : error) : M W A := fun w => (Raised e, w).
Definition diverge {W A} : M W A := fun w => (OutOfFuel, w).
Definition bind {W A B} (c : M W A) (k : A -> M W B) : M W B :=
  fun w =>
    match c w with
    | (Returned a, w') => k a w'
    | (Raised e, w') => (Raised e, w')
    | (OutOfFuel, w') => (OutOfFuel, w')
    end.
Definition lift {W A} (r : result A) : M W A :=
  match r with
  | Ok a => ret a
  | Raise e => raise e
  end.
Definition when {W} (b : bool) (c : M W unit) : M W unit :=
  if b then c else ret tt.

Declare Scope script_scope.
Delimit Scope script_scope with script.
Notation "x <- c ;; k" := (bind c (fun x => k))
  (at level 62, c at next level, right associativity) : script_scope.
Notation "c ;;; k" := (bind c (fun _ => k))
  (at level 62, right associativity) : script_scope.

(** ** [agent_trainer.py] *)

Module Trainer.

Definition pretrained_policy_path : string :=
  "./trained_policies/trained_policy_network.pt".
Definition new_policy_path : string :=
  "./trained_policies/new_policy_network.pt".

Definition batch_size : Z := 32.
Definition gamma : Q := 99 # 100.
Definition initial_epsilon : Q := 5 # 100.
Definition final_epsilon : Q := 5 # 100.
Definition epsilon_decay : N := 20000.
Definition optimizer_epsilon : Q := 15 # 100000.
Definition adam_learning_rate : Q := 625 # 10000000.
Definition target_network_update : N := 10000.
Definition STEP : N := 4000000.
Definition memory_size : N := 1000000.
Definition policy_network_update : N := 4.
Definition policy_saving_frequency : N := 4.
Definition num_eval_episode : nat := 15.
Definition random_exploration_interval : N := 10000.
Definition evaluation_frequency : N := 25000.
Definition max_episode_steps : N := 400000.
Definition frame_stack_size : nat := 5.
Definition previous_experience : N := 100000.

(** The warm-up threshold of line 201:
    [max(random_exploration_interval - previous_experience, 0)]. *)
Definition warmup_threshold : Z :=
  Z.max (Z.of_N random_exploration_interval - Z.of_N previous_experience) 0.

(** The selector both [main] and [evaluate] construct. *)
Definition action_selector (n_actions : nat) : ActionSelector.t :=
  ActionSelector.mk initial_epsilon final_epsilon epsilon_decay
    random_exploration_interval n_actions.

(** [f.smooth_l1_loss] with its defaults: the mean over the batch of
    [0.5 d^2] where [|d| < 1] and [|d| - 0.5] elsewhere. *)
Definition huber (d : Q) : Q :=
  if Qle_bool 1 (Qabs d) then Qabs d - (1 # 2) else (1 # 2) * d * d.

Definition Qsum (l : list Q) : Q := fold_right Qplus 0%Q l.

Definition smooth_l1_loss (input target : list Q) : Q :=
  Qsum (zip_with (fun x y => huber (x - y)) input target)
  / inject_Z (Z.of_nat (length input)).

(** [tensor.max(1)[0]] on one row: the largest entry. *)
Definition row_max (row : list Q) : result Q :=
  match row with
  | [] => Raise RuntimeError
  | x :: xs => Ok (fold_left Qmax xs x)
  end.

(** [tensor.gather(1, action)] on one row. *)
Definition gather_row (row : list Q) (action : nat) : result Q :=
  match row !! action with
  | Some q => Ok q
  | None => Raise IndexError
  end.

Definition Q_of_bool (b : bool) : Q := if b then 1%Q else 0%Q.

(** Line 125: [(t_network * gamma) * (1. - done) + reward], entry by entry. *)
Definition bellman (t : Q) (done : bool) (reward : Q) : Q :=
  (t * gamma) * (1 - Q_of_bool done) + reward.

Fixpoint expected_state_action_values (t_network : list Q)
    (done_batch : list bool) (reward_batch : list Q) : list Q :=
  match t_network, done_batch, reward_batch with
  | t :: ts, d :: ds, r :: rs =>
      bellman t d r :: expected_state_action_values ts ds rs
  | _, _, _ => []
  end.

(** Line 134: [param.grad.data.clamp_(-1, 1)]. *)
Definition clamp (lo hi x : Q) : Q := Qmin (Qmax x lo) hi.

Section Scripts.

Context {Rng Env Obs Frame Net Opt : Type}.
Context `{!RandomSource Rng} `{!Environment Env Obs} `{!FrameCodec Obs Frame}
        `{!QNetwork Net Frame} `{!Optimizer Opt Net}.

#[local] Abbreviation W := (world Rng Env Frame Net Opt).
#[local] Abbreviation Script := (M W).

Local Open Scope script_scope.

(** *** Primitive effects on the world *)

Definition with_env (w : W) (env : Env) : W :=
  World env (w_rng w) (w_memory w) (w_policy w) (w_target w) (w_optimizer w)
        (w_files w) (w_score_log w) (w_sample_calls w) (w_select_calls w).

Definition do_env_reset (wr : wrapping) : Script Obs := fun w =>
  let '(env', obs) := env_reset wr (w_env w) in
  (Returned obs, with_env w env').

Definition do_env_step (wr : wrapping) (action : nat)
  : Script (Obs * Q * bool) := fun w =>
  let '(env', r) := env_step wr (w_env w) action in
  (Returned r, with_env w env').

Definition do_wrap (wr : wrapping) : Script unit := fun w =>
  (Returned tt, with_env w (wrap_deepmind wr (w_env w))).

(** [action_selector.select_action(state, global_step, flag)]; the call
    is recorded with its step and flag. *)
Definition do_select_action (sel : ActionSelector.t) (state : list Frame)
    (global_step : N) (flag : bool) : Script (nat * Q) := fun w =>
  let '(r, g') :=
    ActionSelector.select_action sel (w_policy w) state global_step flag
      (w_rng w) in
  lift r
    (World (w_env w) g' (w_memory w) (w_policy w) (w_target w)
           (w_optimizer w) (w_files w) (w_score_log w) (w_sample_calls w)
           (w_select_calls w ++ [(global_step, flag)])).

Definition do_push (frames : list Frame) (action : nat) (reward : Q)
    (done : bool) : Script unit := fun w =>
  (Returned tt,
   World (w_env w) (w_rng w)
         (ReplayMemory.push (w_memory w) frames action reward done)
         (w_policy w) (w_target w) (w_optimizer w) (w_files w)
         (w_score_log w) (w_sample_calls w) (w_select_calls w)).

(** [memory.sample(n)]; the call is recorded with the size it found. *)
Definition do_sample (n : Z) : Script (ReplayMemory.batch Frame) := fun w =>
  let '(r, g') := ReplayMemory.sample (w_memory w) n (w_rng w) in
  lift r
    (World (w_env w) g' (w_memory w) (w_policy w) (w_target w)
           (w_optimizer w) (w_files w) (w_score_log w)
           (w_sample_calls w ++ [ReplayMemory.size (w_memory w)])
           (w_select_calls w)).

Definition do_log_score (rec : Q * N * Q) : Script unit := fun w =>
  (Returned tt,
   World (w_env w) (w_rng w) (w_memory w) (w_policy w) (w_target w)
         (w_optimizer w) (w_files w) (w_score_log w ++ [rec])
         (w_sample_calls w) (w_select_calls w)).

Definition do_optimizer_step (grads : list Q) : Script unit := fun w =>
  let '(opt', net') := opt_step (w_optimizer w) (w_policy w) grads in
  (Returned tt,
   World (w_env w) (w_rng w) (w_memory w) net' (w_target w) opt'
         (w_files w) (w_score_log w) (w_sample_calls w) (w_select_calls w)).

(** [target_network.load_state_dict(policy_network.state_dict())] *)
Definition do_sync_target : Script unit := fun w =>
  (Returned tt,
   World (w_env w) (w_rng w) (w_memory w) (w_policy w) (w_policy w)
         (w_optimizer w) (w_files w) (w_score_log w) (w_sample_calls w)
         (w_select_calls w)).

(** [torch.save(policy_network.state_dict(), path)] *)
Definition do_save_policy (path : string) : Script unit := fun w =>
  (Returned tt,
   World (w_env w) (w_rng w) (w_memory w) (w_policy w) (w_target w)
         (w_optimizer w) (<[path := w_policy w]> (w_files w))
         (w_score_log w) (w_sample_calls w) (w_select_calls w)).

Definition get_policy : Script Net := fun w => (Returned (w_policy w), w).
Definition get_target : Script Net := fun w => (Returned (w_target w), w).
Definition get_memory_len : Script Z :=
  fun w => (Returned (ReplayMemory.len (w_memory w)), w).

(** *** [evaluate] *)

(** [for _ in range(n): pixels, _, done, _ = env.step(0); ...append] *)
Fixpoint noop_steps (wr : wrapping) (n : nat) (fs : list Frame) (done : bool)
  : Script (list Frame * bool) :=
  match n with
  | 0 => ret (fs, done)
  | S k =>
      r <- do_env_step wr 0 ;;
      let '(pixels, _, d) := r in
      noop_steps wr k
        (deque_append frame_stack_size fs (get_frame_tensor pixels)) d
  end.

(** The [while not done] loop of one evaluation episode. *)
Fixpoint eval_while (fuel : nat) (sel : ActionSelector.t) (step : N)
    (train : bool) (fs : list Frame) (done : bool) (episode_reward : Q)
    (eps : option Q) : Script (list Frame * Q * option Q) :=
  match fuel with
  | 0 => if done then ret (fs, episode_reward, eps) else diverge
  | S fuel' =>
      if done then ret (fs, episode_reward, eps)
      else
        a <- do_select_action sel (drop 1 fs) step train ;;
        let '(action, e) := a in
        r <- do_env_step EvalWrap action ;;
        let '(pixels, reward, done') := r in
        eval_while fuel' sel step train
          (deque_append frame_stack_size fs (get_frame_tensor pixels))
          done' (episode_reward + reward)%Q (Some e)
  end.

Fixpoint eval_episodes (n fuel : nat) (sel : ActionSelector.t) (step : N)
    (train : bool) (fs : list Frame) (total_rewards : list Q)
    (eps : option Q) : Script (list Q * option Q) :=
  match n with
  | 0 => ret (total_rewards, eps)
  | S k =>
      do_env_reset EvalWrap ;;;
      r <- noop_steps EvalWrap 10 fs false ;;
      let '(fs1, done) := r in
      r' <- eval_while fuel sel step train fs1 done 0%Q eps ;;
      let '(fs2, episode_reward, eps') := r' in
      eval_episodes k fuel sel step train fs2
        (total_rewards ++ [episode_reward]) eps'
  end.

(** [evaluate(step, policy_net, device, env, n_actions, train, episode)];
    the policy network is the one of the world (passed by reference), and
    [eps] is unbound at the final write when no episode took a step. *)
Definition evaluate (fuel : nat) (step : N) (n_actions : nat) (train : bool)
    (episode : N) : Script unit :=
  do_wrap EvalWrap ;;;
  r <- eval_episodes num_eval_episode fuel (action_selector n_actions) step
         train [] [] None ;;
  let '(total_rewards, eps) := r in
  match eps with
  | None => raise UnboundLocalError
  | Some e =>
      do_log_score
        (Qsum total_rewards / inject_Z (Z.of_nat num_eval_episode), step, e)%Q
  end.

(** *** [load_pretrained_model] *)

Definition load_pretrained_model (files : gmap string Net) (model : Net)
  : result Net :=
  match files !! pretrained_policy_path with
  | Some state_dict => Ok state_dict
  | None =>
      match files !! new_policy_path with
      | Some state_dict => Ok state_dict
      | None => Ok (init_weights model)
      end
  end.

(** *** [optimize_model] *)

(** [policy_net(state_batch).gather(1, action_batch)] *)
Definition q_values (net : Net) (b : ReplayMemory.batch Frame)
  : result (list Q) :=
  rmapM (fun '(s, a) => gather_row (forward net s) a)
        (zip (ReplayMemory.b_state b) (ReplayMemory.b_action b)).

(** [target_net(n_state_batch).max(1)[0].detach()] *)
Definition t_values (net : Net) (b : ReplayMemory.batch Frame)
  : result (list Q) :=
  rmapM (fun s => row_max (forward net s)) (ReplayMemory.b_next_state b).

(** The loss as a function of the policy parameters, which is what
    [loss.backward()] differentiates; the targets are detached. *)
Definition loss_fn (b : ReplayMemory.batch Frame) (expected : list Q)
    (net : Net) : Q :=
  smooth_l1_loss
    (zip_with (fun s a => default 0%Q (forward net s !! a))
              (ReplayMemory.b_state b) (ReplayMemory.b_action b))
    expected.

(** Lines 133-134: every gradient entry clamped to [-1, 1]. *)
Definition clip_gradients (grads : list Q) : list Q :=
  map (clamp (-1) 1) grads.

Definition optimize_model (train : bool) : Script unit :=
  if negb train then ret tt
  else
    b <- do_sample batch_size ;;
    policy_net <- get_policy ;;
    target_net <- get_target ;;
    q_network <- lift (q_values policy_net b) ;;
    t_network <- lift (t_values target_net b) ;;
    let expected :=
      expected_state_action_values t_network (ReplayMemory.b_done b)
        (ReplayMemory.b_reward b) in
    let loss := smooth_l1_loss q_network expected in
    (* optimizer.zero_grad(); loss.backward() *)
    let grads := backward (loss_fn b expected) policy_net in
    do_optimizer_step (clip_gradients grads).

(** *** [main] *)

(** The local variables the training loop carries from step to step. *)
Record locals : Type := Locals {
  frame_stack : list Frame;
  done : bool;
  episode_len : N;
  episode : N
}.

(** Line 201. *)
Definition training_flag_of (len_memory : Z) : bool :=
  (warmup_threshold <? len_memory)%Z.

(** Lines 203-230: the rest of an iteration once the flag is known. *)
Definition after_flag (fuel possible_actions : nat) (step : N)
    (training_flag : bool) (fs : list Frame) (el ep : N) : Script locals :=
  let state := drop 1 fs in
  a <- do_select_action (action_selector possible_actions) state
         (step + previous_experience)%N training_flag ;;
  let '(action, eps) := a in
  r <- do_env_step TrainWrap action ;;
  let '(pixels, reward, done') := r in
  let fs' := deque_append frame_stack_size fs (get_frame_tensor pixels) in
  do_push fs' action reward done' ;;;
  when (step mod evaluation_frequency =? 0)%N
       (evaluate fuel (step + previous_experience)%N possible_actions
          training_flag ep) ;;;
  when (step mod policy_network_update =? 0)%N
       (optimize_model training_flag) ;;;
  when (step mod target_network_update =? 0)%N do_sync_target ;;;
  when (step mod policy_saving_frequency =? 0)%N
       (do_save_policy new_policy_path) ;;;
  ret (Locals fs' done' (el + 1)%N ep).

(** Lines 190-198: the reset at an episode boundary. *)
Definition episode_start (l : locals) : Script (list Frame * N * N) :=
  if done l then
    do_env_reset TrainWrap ;;;
    r <- noop_steps TrainWrap 10 (frame_stack l) true ;;
    ret (r.1, 0%N, (episode l + 1)%N)
  else ret (frame_stack l, episode_len l, episode l).

(** One iteration of [for step in training_progress_bar]. *)
Definition loop_body (fuel possible_actions : nat) (step : N) (l : locals)
  : Script locals :=
  started <- episode_start l ;;
  let '(fs, el, ep) := started in
  len_memory <- get_memory_len ;;
  after_flag fuel possible_actions step (training_flag_of len_memory) fs el ep.

(** [count] iterations starting at [step]. *)
Fixpoint run_steps (fuel possible_actions count : nat) (step : N) (l : locals)
  : Script locals :=
  match count with
  | 0 => ret l
  | S k =>
      l' <- loop_body fuel possible_actions step l ;;
      run_steps fuel possible_actions k (step + 1)%N l'
  end.

(** [main()]: set-up, then [STEP] iterations. *)
Definition main (fuel : nat) (zero : Frame) (env_raw : Env) (g : Rng)
    (files : gmap string Net) : result (outcome locals * W) :=
  let env := wrap_deepmind TrainWrap env_raw in
  let '(env1, _) := env_reset TrainWrap env in
  let possible_actions := action_space_n env1 in
  let policy0 := dqn_new possible_actions in
  rbind (load_pretrained_model files policy0) (fun policy_network =>
  let target_network := policy_network in
  let optimizer := adam policy_network adam_learning_rate optimizer_epsilon in
  rbind (ReplayMemory.create zero (N.to_nat memory_size) frame_stack_size)
        (fun memory =>
  Ok (run_steps fuel possible_actions (N.to_nat STEP) 0%N
        (Locals [] true 0%N 0%N)
        (World env1 g memory policy_network target_network optimizer files
               [] [] [])))).

End Scripts.

End Trainer.

(** ** [renderer.py] *)

Module Renderer.

Definition pretrained_policy_path : string :=
  "./trained_policies/trained_policy_network.pt".
Definition max_episode_steps : N := 400000.
Definition num_eval_episode : nat := 5.

(** [l.index(max(l))]: the first position of the largest entry. *)
Definition index_of_max (l : list Q) : result nat :=
  match l with
  | [] => Raise ValueError
  | x :: xs => Ok (argmax_from 0 x 1 xs)
  end.

Section Scripts.

Context {Rng Env Obs Frame Net : Type}.
Context `{!RandomSource Rng} `{!Environment Env Obs} `{!FrameCodec Obs Frame}
        `{!QNetwork Net Frame}.

#[local] Abbreviation Script := (M (Env * Rng)).

Local Open Scope script_scope.

(** Lines 18-25. *)
Definition load_pretrained_model (files : gmap string Net) (model : Net)
    (path : string) : result Net :=
  match files !! path with
  | Some state_dict => Ok state_dict
  | None => Raise FileNotFoundError
  end.

(** Modelled from the spec: [ActionSelector_render.select_action] of the
    absent [dqn] module, the evaluation-mode variant with one fixed
    epsilon and no decay schedule. *)
Definition select_action_render (eps : Q) (n_actions : nat) (net : Net)
    (state : list Frame) : Script (nat * Q) := fun w =>
  let '(u, g1) := rs_random w.2 in
  if negb (Qle_bool eps u) then
    let '(a, g2) := rs_randint g1 n_actions in
    (Returned (a, eps), (w.1, g2))
  else lift (rbind (argmax (forward net state)) (fun a => Ok (a, eps)))
            (w.1, g1).

Definition do_step (action : nat) : Script (Obs * Q * bool) := fun w =>
  let '(env', r) := env_step EvalWrap w.1 action in
  (Returned r, (env', w.2)).

Definition do_reset : Script unit := fun w =>
  (Returned tt, ((env_reset EvalWrap w.1).1, w.2)).

Definition do_render : Script Obs := fun w => (Returned (env_render w.1), w).

Fixpoint noop_steps (n : nat) (fs : list Frame) (done : bool)
  : Script (list Frame * bool) :=
  match n with
  | 0 => ret (fs, done)
  | S k =>
      r <- do_step 0 ;;
      let '(pixels, _, d) := r in
      noop_steps k (deque_append 5 fs (get_frame_tensor pixels)) d
  end.

(** The [while not done] loop of one rendered episode. *)
Fixpoint play (fuel : nat) (policy_net : Net) (n_actions : nat)
    (fs : list Frame) (done : bool) (frames : list Obs)
    (current_episode_reward : Q) : Script (list Frame * list Obs * Q) :=
  match fuel with
  | 0 => if done then ret (fs, frames, current_episode_reward) else diverge
  | S fuel' =>
      if done then ret (fs, frames, current_episode_reward)
      else
        frame <- do_render ;;
        a <- select_action_render (5 # 100) n_actions policy_net (drop 1 fs) ;;
        r <- do_step a.1 ;;
        let '(pixels, reward, done') := r in
        play fuel' policy_net n_actions
          (deque_append 5 fs (get_frame_tensor pixels)) done'
          (frames ++ [frame]) (current_episode_reward + reward)%Q
  end.

Fixpoint episodes (n fuel : nat) (policy_net : Net) (n_actions : nat)
    (fs : list Frame) (episode_gif : list (list Obs))
    (episodes_rewards : list Q) : Script (list (list Obs) * list Q) :=
  match n with
  | 0 => ret (episode_gif, episodes_rewards)
  | S k =>
      do_reset ;;;
      r <- noop_steps 10 fs false ;;
      let '(fs1, done) := r in
      r' <- play fuel policy_net n_actions fs1 done [] 0%Q ;;
      let '(fs2, frames, reward) := r' in
      episodes k fuel policy_net n_actions fs2 (episode_gif ++ [frames])
        (episodes_rewards ++ [reward])
  end.

(** [evaluate]: plays the episodes and returns what goes into the GIF,
    the index of the best episode and its frames. *)
Definition evaluate (fuel : nat) (policy_net : Net) (n_actions num_episode : nat)
  : Script (nat * list Obs) :=
  (fun w => (Returned tt, (wrap_deepmind EvalWrap w.1, w.2))) ;;;
  r <- episodes num_episode fuel policy_net n_actions [] [] [] ;;
  let '(episode_gif, episodes_rewards) := r in
  maximum <- lift (index_of_max episodes_rewards) ;;
  match episode_gif !! maximum with
  | Some (frame :: frames) => ret (maximum, frame :: frames)
  | _ => raise IndexError
  end.

(** [main()].  The call of [load_pretrained_model] on line 105 is commented
    out in the source, so the files on disk are never consulted. *)
Definition main (fuel : nat) (env_raw : Env) (g : Rng)
    (files : gmap string Net) : outcome (nat * list Obs) * (Env * Rng) :=
  let env := wrap_deepmind TrainWrap env_raw in
  let possible_actions := action_space_n env in
  let policy_net := dqn_new possible_actions in
  (* load_pretrained_model(policy_net, pretrained_policy_path) *)
  evaluate fuel policy_net possible_actions num_eval_episode (env, g).

End Scripts.

End Renderer.

(** ** A small concrete instance of the collaborators

    A deterministic counter as random source, an emulator that ends an
    episode after twelve steps, frames that are numbers, and a one-number
    network.  The general theorems are run on it. *)

Module Demo.

Definition mod_draw_lt (g high : nat)
  : 0 < high -> (g mod high, S g).1 < high.
Proof. intros Hpos. simpl. apply Nat.mod_upper_bound. lia. Qed.

#[global] Instance demo_rng : RandomSource nat := {|
  rs_random g := (inject_Z (Z.of_nat (g mod 10)) / 10, S g)%Q;
  rs_randint g high := (g mod high, S g);
  rs_randint_lt := mod_draw_lt
|}.

#[global] Instance demo_env : Environment nat nat := {|
  wrap_deepmind _ e := e;
  env_reset _ _ := (0, 0);
  env_step _ e a := (S e, (e + a, 1%Q, 12 <=? e));
  env_render e := e;
  action_space_n _ := 2
|}.

#[global] Instance demo_codec : FrameCodec nat nat := {|
  get_frame_tensor o := o
|}.

#[global] Instance demo_net : QNetwork nat nat := {|
  dqn_new _ := 0;
  forward net state :=
    [inject_Z (Z.of_nat (net + length state)); inject_Z (Z.of_nat (hd 0 state))];
  init_weights net := S net;
  backward loss net := [loss net; (-5)%Q; 3%Q; 1 # 3]
|}.

#[global] Instance demo_opt : Optimizer nat nat := {|
  adam _ _ _ := 0;
  opt_step opt net grads := (S opt, net + length grads)
|}.

(** A transition whose every field carries the marker [k]. *)
Definition marked (k : nat) : ReplayMemory.transition nat :=
  ReplayMemory.Transition (replicate 5 k) k (inject_Z (Z.of_nat k)) false.

(** A transition as the demo emulator produces them: five consecutive
    frames, one of the two actions. *)
Definition played (k : nat) : ReplayMemory.transition nat :=
  ReplayMemory.Transition [k; k + 1; k + 2; k + 3; k + 4] (k mod 2) 1%Q
    (k mod 3 =? 0).

(** An empty memory for five-frame slots. *)
Definition memory_of (cap : nat) : ReplayMemory.t nat :=
  {| ReplayMemory.capacity := cap;
     ReplayMemory.stack_size := 4;
     ReplayMemory.size := 0;
     ReplayMemory.cursor := 0;
     ReplayMemory.m_states := replicate cap (replicate 5 0);
     ReplayMemory.m_actions := replicate cap 0;
     ReplayMemory.m_rewards := replicate cap 0%Q;
     ReplayMemory.m_dones := replicate cap false |}.

(** The world before the first training step, with an empty memory. *)
Definition world0 : world nat nat nat nat nat :=
  World 0 0 (memory_of 64) 0 0 0 ∅ [] [] [].

(** The same world after forty transitions were stored. *)
Definition world_warm : world nat nat nat nat nat :=
  World 0 0 (ReplayMemory.push_all (memory_of 64) (map played (seq 0 40)))
        0 0 0 ∅ [] [] [].

(** The local variables on entry to the loop. *)
Definition locals0 : @Trainer.locals nat := Trainer.Locals [] true 0%N 0%N.

(** The locals after an iteration of the demo emulator that began with a
    reset. *)
Definition locals1 (ep : N) : @Trainer.locals nat :=
  Trainer.Locals [6; 7; 8; 9; 11] false 1%N ep.

(** An emulator whose every step reports the end of the episode. *)
Definition stuck_env : Environment nat nat := {|
  wrap_deepmind _ e := e;
  env_reset _ _ := (0, 0);
  env_step _ e a := (S e, (e + a, 0%Q, true));
  env_render e := e;
  action_space_n _ := 2
|}.

(** How many steps the demo emulator still takes before an episode ends. *)
Definition demo_remaining (e : nat) : nat := 12 - e.

(** The empty world with a pretrained file on disk. *)
Definition world_pre : world nat nat nat nat nat :=
  World 0 0 (memory_of 64) 0 0 0 {[Trainer.pretrained_policy_path := 9]}
        [] [] [].

(** The batch the warm world hands out, and the two forward passes on it. *)
Definition batch_warm : ReplayMemory.batch nat :=
  Eval vm_compute in
    match (ReplayMemory.sample (w_memory world_warm) Trainer.batch_size
             (w_rng world_warm)).1 with
    | Ok b => b
    | Raise _ => ReplayMemory.Batch [] [] [] [] []
    end.

Definition q_warm : list Q :=
  Eval vm_compute in
    match Trainer.q_values (w_policy world_warm) batch_warm with
    | Ok q => q
    | Raise _ => []
    end.

Definition t_warm : list Q :=
  Eval vm_compute in
    match Trainer.t_values (w_target world_warm) batch_warm with
    | Ok t => t
    | Raise _ => []
    end.

End Demo.

(** ** Vocabulary for statements about the scripts *)

Module Observe.

Section Relations.

Context {Rng Env Frame Net Opt : Type}.

#[local] Abbreviation W := (world Rng Env Frame Net Opt).

(** [c] relates every world to the world it leaves behind, whether it
    returns, raises or runs out of fuel. *)
Definition sat {A} (R : W -> W -> Prop) (c : M W A) : Prop :=
  forall w, R w (c w).2.

(** Only the emulator moved. *)
Definition env_only (w w' : W) : Prop :=
  exists env,
    w' = World env (w_rng w) (w_memory w) (w_policy w) (w_target w)
           (w_optimizer w) (w_files w) (w_score_log w) (w_sample_calls w)
           (w_select_calls w).

(** No training effect: the memory was not read, the policy network and
    the optimizer are as they were, and a well-formed memory stayed so
    without shrinking. *)
Definition quiet (w w' : W) : Prop :=
  w_sample_calls w' = w_sample_calls w
  /\ w_policy w' = w_policy w
  /\ w_optimizer w' = w_optimizer w
  /\ (ReplayMemory.wf (w_memory w) ->
      ReplayMemory.wf (w_memory w')
      /\ ReplayMemory.size (w_memory w) <= ReplayMemory.size (w_memory w')).

(** The memory reads made are appended to the record, and each found at
    least as many transitions as were stored at the start. *)
Definition reads_appended (w w' : W) : Prop :=
  exists new,
    w_sample_calls w' = w_sample_calls w ++ new
    /\ (ReplayMemory.wf (w_memory w) ->
        ReplayMemory.wf (w_memory w')
        /\ ReplayMemory.size (w_memory w) <= ReplayMemory.size (w_memory w')
        /\ Forall (fun sz => ReplayMemory.size (w_memory w) <= sz) new).

(** The calls of [select_action] made are appended to the record, and
    each satisfies [P]. *)
Definition selects_appended (P : N * bool -> Prop) (w w' : W) : Prop :=
  exists new,
    w_select_calls w' = w_select_calls w ++ new /\ Forall P new.

(** The observation [f] of the world is as it was. *)
Definition kept {B} (f : W -> B) (w w' : W) : Prop := f w' = f w.

(** Files other than [path] are as they were. *)
Definition files_elsewhere (path : string) (w w' : W) : Prop :=
  forall p, p <> path -> w_files w' !! p = w_files w !! p.

(** Everything an evaluation run has no business with: the memory, both
    networks, the optimizer, the files and the record of memory reads. *)
Definition outside_evaluate (w : W) :=
  (w_memory w, w_policy w, w_target w, w_optimizer w, w_files w,
   w_sample_calls w).

(** The score log only grew: what was in it is still there, in order. *)
Definition score_extended (w w' : W) : Prop :=
  exists new, w_score_log w' = w_score_log w ++ new.

(** Started where [P] holds, [c] establishes [Q] whenever it returns. *)
Definition triple {A} (P : W -> Prop) (c : M W A) (Q : A -> W -> Prop)
  : Prop :=
  forall w, P w -> forall a w', c w = (Returned a, w') -> Q a w'.

End Relations.

End Observe.

(** * Properties *)

(** ** Results and lists *)

Lemma rmapM_ok {A B} (f : A -> result B) (l : list A) :
  Forall (fun x => exists y, f x = Ok y) l ->
  exists ys, rmapM f l = Ok ys /\ Forall2 (fun x y => f x = Ok y) l ys.
Proof.
  induction 1 as [|x xs [y Hy] _ [ys [Hys Hall]]]; simpl.
  - exists []. split; [reflexivity | constructor].
  - exists (y :: ys). rewrite Hy, Hys. simpl.
    split; [reflexivity | constructor; assumption].
Qed.

Lemma rs_draws_length `{RandomSource Rng} (g : Rng) (high count : nat) :
  length (rs_draws g high count).1 = count.
Proof.
  revert g. induction count as [|k IH]; intros g; simpl; [reflexivity|].
  destruct (rs_randint g high) as [i g1].
  specialize (IH g1). destruct (rs_draws g1 high k) as [rest g2].
  simpl in *. congruence.
Qed.

Lemma rs_draws_lt `{RandomSource Rng} (g : Rng) (high count : nat) :
  0 < high -> Forall (fun i => i < high) (rs_draws g high count).1.
Proof.
  intros Hpos. revert g.
  induction count as [|k IH]; intros g; simpl; [constructor|].
  pose proof (rs_randint_lt g high Hpos) as Hi.
  destruct (rs_randint g high) as [i g1].
  specialize (IH g1). destruct (rs_draws g1 high k) as [rest g2].
  simpl in *. constructor; assumption.
Qed.

(** ** Replay memory: size, cursor and slots *)

Section MemoryFacts.

Context {Frame : Type}.
Implicit Types m : ReplayMemory.t Frame.
Implicit Types x : ReplayMemory.transition Frame.

Import ReplayMemory.

(** Reduce the projections of a freshly built memory, nothing else. *)
Local Ltac fields :=
  cbn [push push_tr capacity stack_size size cursor m_states m_actions
       m_rewards m_dones] in *.

Lemma create_ok (zero : Frame) (cap fps : nat) :
  1 <= cap ->
  exists m, create zero cap fps = Ok m /\ wf m /\ capacity m = cap
            /\ size m = 0 /\ cursor m = 0 /\ stack_size m = fps - 1.
Proof.
  intros Hcap. unfold create.
  destruct (Nat.eqb_spec cap 0) as [->|_]; [lia|].
  eexists. split; [reflexivity|].
  repeat split; simpl; rewrite ?length_replicate; lia.
Qed.

Lemma push_wf m frames a r d : wf m -> wf (push m frames a r d).
Proof.
  intros [Hcap Hsize Hcur Hcs Hs Ha Hr Hd].
  split; fields; rewrite ?length_insert; try lia.
  - apply Nat.mod_upper_bound. lia.
  - destruct (decide (S (cursor m) = capacity m)) as [Heq|Hne].
    + rewrite Heq, Nat.Div0.mod_same. lia.
    + rewrite Nat.mod_small by lia. lia.
Qed.

Lemma push_all_wf m xs : wf m -> wf (push_all m xs).
Proof.
  revert m. induction xs as [|x xs IH]; intros m Hwf; simpl; [assumption|].
  apply IH, push_wf, Hwf.
Qed.

Lemma push_all_capacity m xs : capacity (push_all m xs) = capacity m.
Proof.
  revert m. induction xs as [|x xs IH]; intros m; simpl; [reflexivity|].
  now rewrite IH.
Qed.

Lemma push_all_stack_size m xs : stack_size (push_all m xs) = stack_size m.
Proof.
  revert m. induction xs as [|x xs IH]; intros m; simpl; [reflexivity|].
  now rewrite IH.
Qed.

(** The counting invariant, started from any number [n] of earlier pushes. *)
Lemma push_all_counts m xs n :
  0 < capacity m ->
  size m = Nat.min n (capacity m) ->
  cursor m = n mod capacity m ->
  size (push_all m xs) = Nat.min (n + length xs) (capacity m)
  /\ cursor (push_all m xs) = (n + length xs) mod capacity m.
Proof.
  revert m n. induction xs as [|x xs IH]; intros m n Hcap Hsize Hcur; simpl.
  - rewrite Nat.add_0_r. split; assumption.
  - replace (n + S (length xs)) with (S n + length xs) by lia.
    assert (Hc : cursor (push_tr m x) = S n mod capacity m).
    { fields. rewrite Hcur.
      replace (S (n mod capacity m)) with (n mod capacity m + 1) by lia.
      rewrite Nat.Div0.add_mod_idemp_l. f_equal. lia. }
    assert (Hs : size (push_tr m x) = Nat.min (S n) (capacity m)).
    { fields. rewrite Hsize. lia. }
    destruct (IH (push_tr m x) (S n)) as [H1 H2]; try assumption.
    split; assumption.
Qed.

Lemma push_size_mono m frames a r d :
  wf m -> size m <= size (push m frames a r d).
Proof. intros [? ? ? ? ? ? ? ?]. fields. lia. Qed.

Lemma push_all_size_mono m xs : wf m -> size m <= size (push_all m xs).
Proof.
  revert m. induction xs as [|x xs IH]; intros m Hwf; simpl; [lia|].
  etransitivity; [apply (push_size_mono m (tr_frames x) (tr_action x)
                           (tr_reward x) (tr_done x) Hwf)|].
  apply IH, push_wf, Hwf.
Qed.

(** Every index below the capacity names a slot. *)
Lemma slot_ok m i : wf m -> i < capacity m -> exists x, slot m i = Ok x.
Proof.
  intros [Hcap Hsize Hcur Hcs Hs Ha Hr Hd] Hi. unfold slot.
  destruct (lookup_lt_is_Some_2 (m_states m) i) as [s ->]; [lia|].
  destruct (lookup_lt_is_Some_2 (m_actions m) i) as [a ->]; [lia|].
  destruct (lookup_lt_is_Some_2 (m_rewards m) i) as [r ->]; [lia|].
  destruct (lookup_lt_is_Some_2 (m_dones m) i) as [d ->]; [lia|].
  eexists. reflexivity.
Qed.

(** [push] leaves what it wrote in the slot under the old cursor. *)
Lemma slot_push_cursor m frames a r d :
  wf m -> slot (push m frames a r d) (cursor m) = Ok (Transition frames a r d).
Proof.
  intros [Hcap Hsize Hcur Hcs Hs Ha Hr Hd]. unfold slot. fields.
  rewrite !list_lookup_insert_eq by lia. reflexivity.
Qed.

(** [push] touches no other slot. *)
Lemma slot_push_other m frames a r d i :
  i <> cursor m -> slot (push m frames a r d) i = slot m i.
Proof.
  intros Hne. unfold slot. fields.
  rewrite !list_lookup_insert_ne by congruence. reflexivity.
Qed.

Lemma succ_offset_mod (p k c : nat) :
  p < c -> k + 1 < c -> (p + 1 + k) mod c <> p.
Proof.
  intros Hp Hk.
  destruct (le_lt_dec c (p + 1 + k)) as [Hge|Hlt].
  - replace (p + 1 + k) with ((p + 1 + k - c) + 1 * c) by lia.
    rewrite Nat.Div0.mod_add, Nat.mod_small by lia. lia.
  - rewrite Nat.mod_small by lia. lia.
Qed.

(** Fewer than [capacity] further pushes do not come back to slot [p]. *)
Lemma slot_push_all_other m xs p k :
  wf m -> p < capacity m ->
  cursor m = (p + 1 + k) mod capacity m ->
  k + length xs + 1 <= capacity m ->
  slot (push_all m xs) p = slot m p.
Proof.
  revert m k. induction xs as [|x xs IH]; intros m k Hwf Hp Hcur Hlen;
    simpl in *; [reflexivity|].
  rewrite (IH (push_tr m x) (S k)).
  - apply slot_push_other. rewrite Hcur.
    intros Heq. symmetry in Heq. revert Heq. apply succ_offset_mod; lia.
  - apply push_wf, Hwf.
  - assumption.
  - fields. rewrite Hcur.
    replace (S ((p + 1 + k) mod capacity m))
      with ((p + 1 + k) mod capacity m + 1) by lia.
    rewrite Nat.Div0.add_mod_idemp_l. f_equal. lia.
  - fields. lia.
Qed.

(** A valid request is served: [sample] returns one slot per drawn index. *)
Lemma sample_ok `{RandomSource Rng} m (batch_size : Z) (g : Rng) :
  wf m -> (0 < batch_size <= len m)%Z ->
  exists xs g',
    sample m batch_size g = (Ok (batch_of (stack_size m) xs), g')
    /\ Forall2 (fun i x => slot m i = Ok x) (drawn m batch_size g) xs.
Proof.
  intros Hwf [Hlo Hhi]. unfold sample, drawn, len in *.
  destruct (Z.leb_spec batch_size 0) as [?|_]; [lia|].
  destruct (Z.ltb_spec (Z.of_nat (size m)) batch_size) as [?|_]; [lia|].
  cbn [orb].
  pose proof (rs_draws_lt g (size m) (Z.to_nat batch_size)) as Hlt.
  destruct (rs_draws g (size m) (Z.to_nat batch_size)) as [idx g'].
  cbn [fst] in *.
  destruct (rmapM_ok (slot m) idx) as [xs [Hxs Hall]].
  { eapply Forall_impl; [apply Hlt; lia|].
    intros i Hi. apply slot_ok; [assumption|].
    pose proof (wf_size m Hwf). cbn beta in Hi. lia. }
  exists xs, g'. rewrite Hxs. split; [reflexivity | assumption].
Qed.

End MemoryFacts.

(** C2.  On a replay memory of capacity [cap >= 1], after the pushes of any
    list [xs] the logical size is [min (length xs) cap] (so it never
    exceeds [cap], and equals [cap] once [cap] pushes were made) and the
    write cursor is [length xs mod cap].  In the scenario of capacity 4,
    pushing the six transitions marked 0..5 leaves the slots holding the
    markers 4, 5, 2, 3, that is exactly the markers 2..5, with size 4 and
    cursor 2. *)
Theorem replay_memory_push_counts :
  (forall (Frame : Type) (zero : Frame) (cap fps : nat)
          (xs : list (ReplayMemory.transition Frame)),
      1 <= cap ->
      exists m0,
        ReplayMemory.create zero cap fps = Ok m0
        /\ ReplayMemory.size (ReplayMemory.push_all m0 xs)
           = Nat.min (length xs) cap
        /\ ReplayMemory.size (ReplayMemory.push_all m0 xs) <= cap
        /\ (cap <= length xs ->
            ReplayMemory.size (ReplayMemory.push_all m0 xs) = cap)
        /\ ReplayMemory.cursor (ReplayMemory.push_all m0 xs)
           = length xs mod cap)
  /\ (exists m0,
        ReplayMemory.create 0 4 5 = Ok m0
        /\ ReplayMemory.m_actions
             (ReplayMemory.push_all m0 (map Demo.marked (seq 0 6)))
           = [4; 5; 2; 3]
        /\ ReplayMemory.m_states
             (ReplayMemory.push_all m0 (map Demo.marked (seq 0 6)))
           = [replicate 5 4; replicate 5 5; replicate 5 2; replicate 5 3]
        /\ (forall k,
              In k (ReplayMemory.m_actions
                      (ReplayMemory.push_all m0 (map Demo.marked (seq 0 6))))
              <-> In k [2; 3; 4; 5])
        /\ ReplayMemory.size
             (ReplayMemory.push_all m0 (map Demo.marked (seq 0 6))) = 4
        /\ ReplayMemory.cursor
             (ReplayMemory.push_all m0 (map Demo.marked (seq 0 6))) = 2).
Proof.
  split.
  - intros Frame zero cap fps xs Hcap.
    destruct (create_ok zero cap fps Hcap)
      as [m0 [Hm0 [Hwf [Hc [Hs [Hcur _]]]]]].
    exists m0. split; [assumption|].
    destruct (push_all_counts m0 xs 0) as [Hsize Hcursor];
      rewrite ?Hc; [lia | rewrite Hs; lia | rewrite Hcur, Nat.Div0.mod_0_l; lia |].
    rewrite Hc in *. cbn [Nat.add] in *.
    rewrite Hsize, Hcursor. repeat split; lia.
  - eexists. split; [reflexivity|].
    repeat split; try reflexivity; cbn; intros Hin; intuition lia.
Qed.

Lemma replay_memory_push_counts_witness :
  1 <= 4 /\
  exists m0,
    ReplayMemory.create 0 4 5 = Ok m0
    /\ ReplayMemory.size (ReplayMemory.push_all m0 (map Demo.marked (seq 0 6)))
       = Nat.min (length (map Demo.marked (seq 0 6))) 4
    /\ ReplayMemory.size (ReplayMemory.push_all m0 (map Demo.marked (seq 0 6)))
       <= 4
    /\ (4 <= length (map Demo.marked (seq 0 6)) ->
        ReplayMemory.size
          (ReplayMemory.push_all m0 (map Demo.marked (seq 0 6))) = 4)
    /\ ReplayMemory.cursor
         (ReplayMemory.push_all m0 (map Demo.marked (seq 0 6)))
       = length (map Demo.marked (seq 0 6)) mod 4.
Proof.
  split; [lia|].
  apply (proj1 replay_memory_push_counts nat 0 4 5
           (map Demo.marked (seq 0 6))).
  lia.
Defined.

(** C3.  In every state of the replay memory, [sample] with a batch size
    that exceeds the current size or is not positive fails with
    [InvalidSampleSize]; it returns no batch and draws nothing. *)
Theorem sample_rejects_invalid_size {Frame Rng : Type} `{!RandomSource Rng}
    (m : ReplayMemory.t Frame) (batch_size : Z) (g : Rng) :
  (ReplayMemory.len m < batch_size \/ batch_size <= 0)%Z ->
  ReplayMemory.sample m batch_size g = (Raise InvalidSampleSize, g)
  /\ (forall b g', ReplayMemory.sample m batch_size g <> (Ok b, g')).
Proof.
  intros Hbad.
  assert (Hs : ReplayMemory.sample m batch_size g
               = (Raise InvalidSampleSize, g)).
  { unfold ReplayMemory.sample.
    destruct (Z.leb_spec batch_size 0) as [?|Hpos]; [reflexivity|].
    destruct (Z.ltb_spec (ReplayMemory.len m) batch_size) as [?|?];
      [reflexivity | lia]. }
  split; [assumption|]. intros b g'. rewrite Hs. discriminate.
Qed.

Lemma sample_rejects_invalid_size_witness :
  (ReplayMemory.len (ReplayMemory.push_all (Demo.memory_of 4)
                       (map Demo.marked (seq 0 3))) < 4
   \/ 4 <= 0)%Z
  /\ ReplayMemory.sample
       (ReplayMemory.push_all (Demo.memory_of 4) (map Demo.marked (seq 0 3)))
       4 7
     = (Raise InvalidSampleSize, 7).
Proof.
  split; [left; vm_compute; reflexivity|].
  apply (sample_rejects_invalid_size
           (ReplayMemory.push_all (Demo.memory_of 4)
              (map Demo.marked (seq 0 3))) 4 7).
  left. vm_compute. reflexivity.
Defined.

(** C4, as amended.  A transition written by [push] at cursor position
    [p] of a well-formed memory, with a frame sequence of length
    [stack_size + 1], is read back value-exact as long as the slot has not
    been overwritten: position [p] can be drawn, and every later [sample]
    of a valid batch size made with fewer than [capacity] pushes in between
    succeeds and returns, at each place where the drawn index is [p], the
    first [stack_size] frames as state and the last [stack_size] frames as
    next state, together with the stored action, reward and done flag. *)
Theorem push_sample_round_trip {Frame Rng : Type} `{!RandomSource Rng}
    (m : ReplayMemory.t Frame) (frames : list Frame) (a : nat) (r : Q)
    (d : bool) (later : list (ReplayMemory.transition Frame))
    (batch_size : Z) (g : Rng) :
  ReplayMemory.wf m ->
  length frames = S (ReplayMemory.stack_size m) ->
  length later < ReplayMemory.capacity m ->
  (0 < batch_size
   <= ReplayMemory.len
        (ReplayMemory.push_all (ReplayMemory.push m frames a r d) later))%Z ->
  let p := ReplayMemory.cursor m in
  let m' := ReplayMemory.push_all (ReplayMemory.push m frames a r d) later in
  p < ReplayMemory.size m'
  /\ length (take (ReplayMemory.stack_size m) frames)
     = ReplayMemory.stack_size m
  /\ length (drop (length frames - ReplayMemory.stack_size m) frames)
     = ReplayMemory.stack_size m
  /\ exists b g',
       ReplayMemory.sample m' batch_size g = (Ok b, g')
       /\ length (ReplayMemory.b_state b) = Z.to_nat batch_size
       /\ forall j,
            ReplayMemory.drawn m' batch_size g !! j = Some p ->
            ReplayMemory.b_state b !! j
            = Some (take (ReplayMemory.stack_size m) frames)
            /\ ReplayMemory.b_next_state b !! j
               = Some (drop (length frames - ReplayMemory.stack_size m) frames)
            /\ ReplayMemory.b_action b !! j = Some a
            /\ ReplayMemory.b_reward b !! j = Some r
            /\ ReplayMemory.b_done b !! j = Some d.
Proof.
  intros Hwf Hlen Hlater Hbs p m'.
  pose proof (push_wf m frames a r d Hwf) as Hwf1.
  pose proof (push_all_wf _ later Hwf1) as Hwf'.
  assert (Hslot : ReplayMemory.slot m' p
                  = Ok (ReplayMemory.Transition frames a r d)).
  { subst m' p.
    rewrite (slot_push_all_other _ later (ReplayMemory.cursor m) 0).
    - apply slot_push_cursor, Hwf.
    - assumption.
    - cbn [ReplayMemory.capacity ReplayMemory.push]. apply Hwf.
    - cbn [ReplayMemory.capacity ReplayMemory.cursor ReplayMemory.push].
      f_equal. lia.
    - cbn [ReplayMemory.capacity ReplayMemory.push]. lia. }
  split; [|split; [|split]].
  - subst m' p.
    pose proof (push_all_size_mono _ later Hwf1) as Hmono.
    destruct Hwf as [Hcap Hsize Hcur Hcs _ _ _ _].
    cbn [ReplayMemory.size ReplayMemory.push] in Hmono. lia.
  - rewrite length_take. lia.
  - rewrite length_drop. lia.
  - destruct (sample_ok m' batch_size g Hwf' Hbs) as [xs [g' [Hs Hall]]].
    exists (ReplayMemory.batch_of (ReplayMemory.stack_size m') xs), g'.
    split; [assumption|].
    assert (Hstack : ReplayMemory.stack_size m' = ReplayMemory.stack_size m).
    { subst m'. rewrite push_all_stack_size. reflexivity. }
    unfold ReplayMemory.batch_of.
    cbn [ReplayMemory.b_state ReplayMemory.b_next_state ReplayMemory.b_action
         ReplayMemory.b_reward ReplayMemory.b_done].
    split.
    + rewrite length_map, <- (Forall2_length _ _ _ Hall).
      unfold ReplayMemory.drawn. apply rs_draws_length.
    + intros j Hj.
      destruct (Forall2_lookup_l _ _ _ _ _ Hall Hj) as [x [Hx Hsx]].
      rewrite Hslot in Hsx. injection Hsx as <-.
      rewrite !list_lookup_fmap, Hx, Hstack. cbn.
      unfold ReplayMemory.state_of, ReplayMemory.next_state_of.
      repeat split; reflexivity.
Qed.

Lemma push_sample_round_trip_witness :
  let m := ReplayMemory.push_all (Demo.memory_of 4)
             (map Demo.played (seq 0 5)) in
  let m' := ReplayMemory.push_all
              (ReplayMemory.push m [50; 51; 52; 53; 54] 1 (1 # 2) true)
              (map Demo.played (seq 8 2)) in
  ReplayMemory.cursor m = 1
  /\ ReplayMemory.drawn m' 3 5 = [1; 2; 3]
  /\ exists b g',
       ReplayMemory.sample m' 3 5 = (Ok b, g')
       /\ length (ReplayMemory.b_state b) = 3
       /\ forall j,
            ReplayMemory.drawn m' 3 5 !! j = Some 1 ->
            ReplayMemory.b_state b !! j = Some [50; 51; 52; 53]
            /\ ReplayMemory.b_next_state b !! j = Some [51; 52; 53; 54]
            /\ ReplayMemory.b_action b !! j = Some 1
            /\ ReplayMemory.b_reward b !! j = Some (1 # 2)
            /\ ReplayMemory.b_done b !! j = Some true.
Proof.
  intros m m'.
  split; [reflexivity|]. split; [vm_compute; reflexivity|].
  refine (proj2 (proj2 (proj2
    (push_sample_round_trip m [50; 51; 52; 53; 54] 1 (1 # 2) true
       (map Demo.played (seq 8 2)) 3 5 _ _ _ _)))).
  - apply push_all_wf. split; cbn; lia.
  - reflexivity.
  - cbn. lia.
  - vm_compute. split; [reflexivity | discriminate].
Defined.

(** C4 as stated fails once the slot has been written again: in a memory
    of capacity 2, after a push at cursor 0 and two further pushes, a
    sample that draws index 0 returns the frames of the last push, not
    those written first. *)
Lemma push_sample_overwritten_counterexample :
  let m := Demo.memory_of 2 in
  let m' := ReplayMemory.push_all
              (ReplayMemory.push m [1; 2; 3; 4; 5] 1 (1 # 2) true)
              (map Demo.marked [7; 8]) in
  ReplayMemory.wf m
  /\ length [1; 2; 3; 4; 5] = S (ReplayMemory.stack_size m)
  /\ ReplayMemory.cursor m = 0
  /\ (0 < 1 <= ReplayMemory.len m')%Z
  /\ ReplayMemory.drawn m' 1 0 !! 0 = Some 0
  /\ exists b g',
       ReplayMemory.sample m' 1 0 = (Ok b, g')
       /\ ReplayMemory.b_state b !! 0 = Some [8; 8; 8; 8]
       /\ ReplayMemory.b_state b !! 0
          <> Some (take (ReplayMemory.stack_size m) [1; 2; 3; 4; 5]).
Proof.
  intros m m'.
  split; [split; cbn; lia|]. split; [reflexivity|]. split; [reflexivity|].
  split; [vm_compute; split; [reflexivity | discriminate]|].
  split; [reflexivity|].
  eexists. eexists. split; [vm_compute; reflexivity|].
  split; [reflexivity | discriminate].
Qed.

(** ** The exploration schedule *)

Lemma checked_div_pos (a : Q) (n : N) :
  (0 < n)%N ->
  checked_div a (inject_Z (Z.of_N n)) = Ok (a / inject_Z (Z.of_N n))%Q.
Proof.
  intros Hn. unfold checked_div.
  destruct (Qeq_bool (inject_Z (Z.of_N n)) 0) eqn:Hz; [|reflexivity].
  apply Qeq_bool_eq in Hz. unfold Qeq in Hz. simpl in Hz. lia.
Qed.

(** The closed form of the schedule: no step makes it raise. *)
Lemma effective_epsilon_value (s : ActionSelector.t) (t : N) :
  ActionSelector.effective_epsilon s t
  = Ok (if (ActionSelector.n_decay s <=? t)%N then ActionSelector.eps_end s
        else (ActionSelector.eps_start s
              - (ActionSelector.eps_start s - ActionSelector.eps_end s)
                * (inject_Z (Z.of_N t)
                   / inject_Z (Z.of_N (ActionSelector.n_decay s))))%Q).
Proof.
  unfold ActionSelector.effective_epsilon.
  destruct (N.leb_spec (ActionSelector.n_decay s) t) as [Hle|Hlt];
    [reflexivity|].
  rewrite checked_div_pos by lia. reflexivity.
Qed.







(** C6.  With the constants the program uses (initial and final epsilon
    0.05, decay horizon 20000) the effective epsilon is computed without
    raising at every global step, whatever the warm-up length and the
    number of actions, and its value is 0.05. *)
Theorem degenerate_schedule_is_constant (warmup : N) (n_actions : nat) (t : N) :
  exists e,
    ActionSelector.effective_epsilon
      (ActionSelector.mk Trainer.initial_epsilon Trainer.final_epsilon
         Trainer.epsilon_decay warmup n_actions) t = Ok e
    /\ e == 5 # 100
    /\ Trainer.initial_epsilon = (5 # 100)
    /\ Trainer.final_epsilon = (5 # 100)
    /\ Trainer.epsilon_decay = 20000%N.
Proof.
  eexists. rewrite effective_epsilon_value. split; [reflexivity|].
  split; [|repeat split].
  cbn [ActionSelector.n_decay ActionSelector.eps_start ActionSelector.eps_end].
  destruct (Trainer.epsilon_decay <=? t)%N; [reflexivity|].
  unfold Trainer.initial_epsilon, Trainer.final_epsilon.
  set (x := (_ / _)%Q). ring.
Qed.

(** ** The scripts of the trainer *)

Section TrainerFacts.

Context {Rng Env Obs Frame Net Opt : Type}.
Context `{!RandomSource Rng} `{!Environment Env Obs} `{!FrameCodec Obs Frame}
        `{!QNetwork Net Frame} `{!Optimizer Opt Net}.

#[local] Abbreviation W := (world Rng Env Frame Net Opt).
#[local] Abbreviation sat := (@Observe.sat Rng Env Frame Net Opt _).
#[local] Abbreviation env_only := (@Observe.env_only Rng Env Frame Net Opt).
#[local] Abbreviation quiet := (@Observe.quiet Rng Env Frame Net Opt).
#[local] Abbreviation reads_appended :=
  (@Observe.reads_appended Rng Env Frame Net Opt).
#[local] Abbreviation selects_appended :=
  (@Observe.selects_appended Rng Env Frame Net Opt).

(** *** Composition of scripts under a preorder on worlds *)

Section Compose.

Context (R : W -> W -> Prop) `{!PreOrder R}.

Lemma sat_ret {A} (a : A) : sat R (ret a).
Proof. intros w. simpl. reflexivity. Qed.

Lemma sat_raise {A} (e : error) : sat R (raise (A := A) e).
Proof. intros w. simpl. reflexivity. Qed.

Lemma sat_diverge {A} : sat R (diverge (A := A)).
Proof. intros w. simpl. reflexivity. Qed.

Lemma sat_lift {A} (r : result A) : sat R (lift r).
Proof. destruct r; [apply sat_ret | apply sat_raise]. Qed.

Lemma sat_bind {A B} (c : M W A) (k : A -> M W B) :
  sat R c -> (forall a, sat R (k a)) -> sat R (bind c k).
Proof.
  intros Hc Hk w. unfold bind. specialize (Hc w).
  destruct (c w) as [[a|e|] w1]; cbn [snd] in *; try exact Hc.
  transitivity w1; [exact Hc | apply Hk].
Qed.

Lemma sat_when (b : bool) (c : M W unit) : sat R c -> sat R (when b c).
Proof. intros Hc. destruct b; [exact Hc | apply sat_ret]. Qed.

Lemma sat_when_false (c : M W unit) : sat R (when false c).
Proof. apply sat_ret. Qed.

End Compose.

Lemma sat_weaken {A} (R R' : W -> W -> Prop) (c : M W A) :
  (forall w w', R w w' -> R' w w') -> sat R c -> sat R' c.
Proof. intros Hsub Hc w. apply Hsub, Hc. Qed.

(** *** The relations are preorders and are ordered by inclusion *)

#[local] Instance env_only_preorder : PreOrder env_only.
Proof.
  split.
  - intros [e g m p t o f s c1 c2]. exists e. reflexivity.
  - intros w1 w2 w3 [e1 ->] [e2 ->]. exists e2. reflexivity.
Qed.

#[local] Instance quiet_preorder : PreOrder quiet.
Proof.
  split.
  - intros w. unfold quiet. do 3 (split; [reflexivity|]).
    intros Hwf. split; [assumption | lia].
  - intros w1 w2 w3 (Hs1 & Hp1 & Ho1 & Hm1) (Hs2 & Hp2 & Ho2 & Hm2).
    unfold quiet. split; [congruence|]. split; [congruence|].
    split; [congruence|]. intros Hwf1.
    destruct (Hm1 Hwf1) as [Hwf2 Hle1]. destruct (Hm2 Hwf2) as [Hwf3 Hle2].
    split; [assumption | lia].
Qed.

#[local] Instance reads_appended_preorder : PreOrder reads_appended.
Proof.
  split.
  - intros w. exists []. rewrite app_nil_r. split; [reflexivity|].
    intros Hwf. split; [assumption|]. split; [lia | constructor].
  - intros w1 w2 w3 (n1 & Hs1 & Hm1) (n2 & Hs2 & Hm2).
    exists (n1 ++ n2). split; [rewrite Hs2, Hs1, app_assoc; reflexivity|].
    intros Hwf1. destruct (Hm1 Hwf1) as (Hwf2 & Hle1 & Hall1).
    destruct (Hm2 Hwf2) as (Hwf3 & Hle2 & Hall2).
    split; [assumption|]. split; [lia|].
    apply Forall_app. split; [assumption|].
    eapply Forall_impl; [exact Hall2|]. intros sz Hsz. cbn beta in *. lia.
Qed.

#[local] Instance selects_appended_preorder (P : N * bool -> Prop) :
  PreOrder (selects_appended P).
Proof.
  split.
  - intros w. exists []. rewrite app_nil_r. split; [reflexivity|constructor].
  - intros w1 w2 w3 (n1 & Hs1 & Hall1) (n2 & Hs2 & Hall2).
    exists (n1 ++ n2). split; [rewrite Hs2, Hs1, app_assoc; reflexivity|].
    apply Forall_app. split; assumption.
Qed.

Lemma env_only_quiet (w w' : W) : env_only w w' -> quiet w w'.
Proof.
  intros [e ->]. unfold quiet. cbn. do 3 (split; [reflexivity|]).
  intros Hwf. split; [assumption | lia].
Qed.

Lemma quiet_reads_appended (w w' : W) : quiet w w' -> reads_appended w w'.
Proof.
  intros (Hs & _ & _ & Hm). exists []. rewrite app_nil_r.
  split; [assumption|]. intros Hwf. destruct (Hm Hwf) as [Hwf' Hle].
  split; [assumption|]. split; [assumption | constructor].
Qed.

Lemma env_only_selects (P : N * bool -> Prop) (w w' : W) :
  env_only w w' -> selects_appended P w w'.
Proof.
  intros [e ->]. exists []. cbn. rewrite app_nil_r.
  split; [reflexivity|constructor].
Qed.

(** *** What each primitive effect does to the observed fields *)

Create HintDb script discriminated.

Lemma quiet_of_fields (w w' : W) :
  w_sample_calls w' = w_sample_calls w ->
  w_policy w' = w_policy w ->
  w_optimizer w' = w_optimizer w ->
  w_memory w' = w_memory w ->
  quiet w w'.
Proof.
  intros Hs Hp Ho Hm. unfold quiet. rewrite Hs, Hp, Ho, Hm.
  do 3 (split; [reflexivity|]). intros Hwf. split; [assumption | lia].
Qed.

Lemma selects_kept (P : N * bool -> Prop) (w w' : W) :
  w_select_calls w' = w_select_calls w -> selects_appended P w w'.
Proof.
  intros Hs. exists []. rewrite Hs, app_nil_r.
  split; [reflexivity | constructor].
Qed.

Lemma do_env_reset_env wr : sat env_only (Trainer.do_env_reset wr).
Proof.
  intros w. unfold Trainer.do_env_reset.
  destruct (env_reset wr (w_env w)) as [e o]. exists e. reflexivity.
Qed.

Lemma do_env_step_env wr a : sat env_only (Trainer.do_env_step wr a).
Proof.
  intros w. unfold Trainer.do_env_step.
  destruct (env_step wr (w_env w) a) as [e o]. exists e. reflexivity.
Qed.

Lemma do_wrap_env wr : sat env_only (Trainer.do_wrap wr).
Proof. intros w. eexists. reflexivity. Qed.

Lemma noop_steps_env wr n fs d : sat env_only (Trainer.noop_steps wr n fs d).
Proof.
  revert fs d. induction n as [|k IH]; intros fs d; simpl.
  - apply sat_ret; typeclasses eauto.
  - apply sat_bind; [typeclasses eauto | apply do_env_step_env |].
    intros [[pixels reward] d']. apply IH.
Qed.

Lemma do_select_action_quiet sel st g flag :
  sat quiet (Trainer.do_select_action sel st g flag).
Proof.
  intros w. unfold Trainer.do_select_action.
  destruct (ActionSelector.select_action sel (w_policy w) st g flag (w_rng w))
    as [[a|e] g']; apply quiet_of_fields; reflexivity.
Qed.

Lemma do_select_action_selects (P : N * bool -> Prop) sel st g flag :
  P (g, flag) ->
  sat (selects_appended P) (Trainer.do_select_action sel st g flag).
Proof.
  intros HP w. unfold Trainer.do_select_action.
  exists [(g, flag)].
  destruct (ActionSelector.select_action sel (w_policy w) st g flag (w_rng w))
    as [[a|e] g']; (split; [reflexivity | repeat constructor; exact HP]).
Qed.

Lemma do_push_quiet frames a r d : sat quiet (Trainer.do_push frames a r d).
Proof.
  intros w. unfold Observe.quiet, Trainer.do_push.
  cbn [snd w_sample_calls w_policy w_optimizer w_memory].
  do 3 (split; [reflexivity|]).
  intros Hwf. split; [apply push_wf | apply push_size_mono]; exact Hwf.
Qed.

Lemma do_push_selects P frames a r d :
  sat (selects_appended P) (Trainer.do_push frames a r d).
Proof. intros w. apply selects_kept. reflexivity. Qed.

Lemma do_log_score_quiet rec : sat quiet (Trainer.do_log_score rec).
Proof. intros w. apply quiet_of_fields; reflexivity. Qed.

Lemma do_log_score_selects P rec :
  sat (selects_appended P) (Trainer.do_log_score rec).
Proof. intros w. apply selects_kept. reflexivity. Qed.

Lemma do_sync_target_quiet : sat quiet Trainer.do_sync_target.
Proof. intros w. apply quiet_of_fields; reflexivity. Qed.

Lemma do_sync_target_selects P :
  sat (selects_appended P) Trainer.do_sync_target.
Proof. intros w. apply selects_kept. reflexivity. Qed.

Lemma do_save_policy_quiet path : sat quiet (Trainer.do_save_policy path).
Proof. intros w. apply quiet_of_fields; reflexivity. Qed.

Lemma do_save_policy_selects P path :
  sat (selects_appended P) (Trainer.do_save_policy path).
Proof. intros w. apply selects_kept. reflexivity. Qed.

Lemma get_policy_sat R `{!PreOrder R} : sat R Trainer.get_policy.
Proof. intros w. cbn. reflexivity. Qed.

Lemma get_target_sat R `{!PreOrder R} : sat R Trainer.get_target.
Proof. intros w. cbn. reflexivity. Qed.

Lemma get_memory_len_sat R `{!PreOrder R} : sat R Trainer.get_memory_len.
Proof. intros w. cbn. reflexivity. Qed.

Lemma do_sample_reads n : sat reads_appended (Trainer.do_sample n).
Proof.
  intros w. unfold Trainer.do_sample.
  exists [ReplayMemory.size (w_memory w)].
  destruct (ReplayMemory.sample (w_memory w) n (w_rng w)) as [[b|e] g'];
    (split; [reflexivity|]; intros Hwf; split; [exact Hwf|];
     split; [cbn; lia | repeat constructor; cbn; lia]).
Qed.

Lemma do_sample_selects P n : sat (selects_appended P) (Trainer.do_sample n).
Proof.
  intros w. unfold Trainer.do_sample.
  destruct (ReplayMemory.sample (w_memory w) n (w_rng w)) as [[b|e] g'];
    apply selects_kept; reflexivity.
Qed.

Lemma do_optimizer_step_reads grads :
  sat reads_appended (Trainer.do_optimizer_step grads).
Proof.
  intros w. unfold Trainer.do_optimizer_step.
  destruct (opt_step (w_optimizer w) (w_policy w) grads) as [o p].
  exists []. cbn. rewrite app_nil_r. split; [reflexivity|].
  intros Hwf. split; [exact Hwf|]. split; [lia | constructor].
Qed.

Lemma do_optimizer_step_selects P grads :
  sat (selects_appended P) (Trainer.do_optimizer_step grads).
Proof.
  intros w. unfold Trainer.do_optimizer_step.
  destruct (opt_step (w_optimizer w) (w_policy w) grads) as [o p].
  apply selects_kept. reflexivity.
Qed.

Lemma env_sat_quiet {A} (c : M W A) : sat env_only c -> sat quiet c.
Proof. apply sat_weaken, env_only_quiet. Qed.

Lemma env_sat_selects {A} P (c : M W A) :
  sat env_only c -> sat (selects_appended P) c.
Proof. apply sat_weaken, env_only_selects. Qed.

Lemma quiet_sat_reads {A} (c : M W A) : sat quiet c -> sat reads_appended c.
Proof. apply sat_weaken, quiet_reads_appended. Qed.

#[local] Hint Resolve do_env_reset_env do_env_step_env do_wrap_env
  noop_steps_env do_select_action_quiet do_push_quiet do_push_selects
  do_log_score_quiet do_log_score_selects do_sync_target_quiet
  do_sync_target_selects do_save_policy_quiet do_save_policy_selects
  do_sample_reads do_sample_selects do_optimizer_step_reads
  do_optimizer_step_selects env_sat_quiet env_sat_selects : script.

(** Walk through a script: binds, branches and pattern lets are opened,
    leaves are closed from the hint base. *)
Local Ltac script :=
  repeat first
    [ apply sat_bind; [typeclasses eauto | | intros ?]
    | apply sat_ret; typeclasses eauto
    | apply sat_raise; typeclasses eauto
    | apply sat_diverge; typeclasses eauto
    | apply sat_lift; typeclasses eauto
    | apply get_policy_sat; typeclasses eauto
    | apply get_target_sat; typeclasses eauto
    | apply get_memory_len_sat; typeclasses eauto
    | apply sat_when_false; typeclasses eauto
    | apply sat_when; [typeclasses eauto |]
    | match goal with
      | |- Observe.sat _ (let '(_, _) := ?x in _) => destruct x
      | |- Observe.sat _ (if ?b then _ else _) => destruct b
      | |- Observe.sat _ (match ?o with Some _ => _ | None => _ end) =>
          destruct o
      end
    | solve [eauto with script] ].

(** *** [evaluate] neither reads the memory nor trains *)

Lemma eval_while_quiet fuel sel step train fs d reward eps :
  sat quiet (Trainer.eval_while fuel sel step train fs d reward eps).
Proof.
  revert fs d reward eps.
  induction fuel as [|fuel IH]; intros fs d reward eps; simpl; script.
Qed.

Lemma eval_while_selects P fuel sel step train fs d reward eps :
  P (step, train) ->
  sat (selects_appended P)
      (Trainer.eval_while fuel sel step train fs d reward eps).
Proof.
  intros HP. revert fs d reward eps.
  induction fuel as [|fuel IH]; intros fs d reward eps; simpl; script.
  apply do_select_action_selects, HP.
Qed.

#[local] Hint Resolve eval_while_quiet eval_while_selects : script.

Lemma eval_episodes_quiet n fuel sel step train fs rewards eps :
  sat quiet (Trainer.eval_episodes n fuel sel step train fs rewards eps).
Proof.
  revert fs rewards eps.
  induction n as [|n IH]; intros fs rewards eps; simpl; script.
Qed.

Lemma eval_episodes_selects P n fuel sel step train fs rewards eps :
  P (step, train) ->
  sat (selects_appended P)
      (Trainer.eval_episodes n fuel sel step train fs rewards eps).
Proof.
  intros HP. revert fs rewards eps.
  induction n as [|n IH]; intros fs rewards eps; simpl; script.
Qed.

#[local] Hint Resolve eval_episodes_quiet eval_episodes_selects : script.

Lemma evaluate_quiet fuel step n train ep :
  sat quiet (Trainer.evaluate fuel step n train ep).
Proof. unfold Trainer.evaluate. script. Qed.

Lemma evaluate_selects P fuel step n train ep :
  P (step, train) ->
  sat (selects_appended P) (Trainer.evaluate fuel step n train ep).
Proof. intros HP. unfold Trainer.evaluate. script. Qed.

#[local] Hint Resolve evaluate_quiet evaluate_selects : script.

(** *** [optimize_model] *)

Lemma optimize_model_off (w : W) :
  Trainer.optimize_model false w = (Returned tt, w).
Proof. reflexivity. Qed.

Lemma optimize_model_off_quiet : sat quiet (Trainer.optimize_model false).
Proof. intros w. rewrite optimize_model_off. cbn [snd]. reflexivity. Qed.

Lemma optimize_model_reads train :
  sat reads_appended (Trainer.optimize_model train).
Proof. unfold Trainer.optimize_model. script. Qed.

Lemma optimize_model_selects P train :
  sat (selects_appended P) (Trainer.optimize_model train).
Proof. unfold Trainer.optimize_model. script. Qed.

#[local] Hint Resolve optimize_model_off_quiet optimize_model_reads
  optimize_model_selects quiet_sat_reads : script.

(** *** One iteration of the training loop *)

Lemma episode_start_env l : sat env_only (Trainer.episode_start l).
Proof. unfold Trainer.episode_start. script. Qed.

Lemma after_flag_reads fuel n step flag fs el ep :
  sat reads_appended (Trainer.after_flag fuel n step flag fs el ep).
Proof. unfold Trainer.after_flag. script. Qed.

Lemma after_flag_selects P fuel n step flag fs el ep :
  P ((step + Trainer.previous_experience)%N, flag) ->
  sat (selects_appended P) (Trainer.after_flag fuel n step flag fs el ep).
Proof.
  intros HP. unfold Trainer.after_flag. script.
  apply do_select_action_selects, HP.
Qed.

Lemma after_flag_quiet fuel n step flag fs el ep :
  flag = false \/ (step mod Trainer.policy_network_update)%N <> 0%N ->
  sat quiet (Trainer.after_flag fuel n step flag fs el ep).
Proof.
  intros [-> | Hstep]; unfold Trainer.after_flag.
  - script.
  - destruct (N.eqb_spec (step mod Trainer.policy_network_update) 0)
      as [Heq|_]; [contradiction|].
    script.
Qed.

(** The flag of line 201 is computed from the memory as the iteration
    finds it: the episode reset before it only moves the emulator. *)
Lemma loop_body_sat (R : W -> W -> Prop) `{!PreOrder R} fuel n step l (w : W) :
  (forall w1 w2, env_only w1 w2 -> R w1 w2) ->
  (forall fs el ep,
      sat R (Trainer.after_flag fuel n step
               (Trainer.training_flag_of (ReplayMemory.len (w_memory w)))
               fs el ep)) ->
  R w (Trainer.loop_body fuel n step l w).2.
Proof.
  intros Henv Hafter. unfold Trainer.loop_body, bind.
  pose proof (episode_start_env l w) as Hstart.
  destruct (Trainer.episode_start l w) as [[[[fs el] ep]|e|] w1];
    cbn [snd] in *; try (apply Henv, Hstart).
  unfold Trainer.get_memory_len.
  transitivity w1; [apply Henv, Hstart|].
  destruct Hstart as [env ->]. cbn [w_memory]. apply Hafter.
Qed.

Lemma loop_body_reads fuel n step l :
  sat reads_appended (Trainer.loop_body fuel n step l).
Proof.
  intros w. apply loop_body_sat; [typeclasses eauto | |].
  - intros w1 w2 Henv. apply quiet_reads_appended, env_only_quiet, Henv.
  - intros fs el ep. apply after_flag_reads.
Qed.

Lemma loop_body_selects P fuel n step l :
  (forall flag, P ((step + Trainer.previous_experience)%N, flag)) ->
  sat (selects_appended P) (Trainer.loop_body fuel n step l).
Proof.
  intros HP w. apply loop_body_sat; [typeclasses eauto | |].
  - intros w1 w2 Henv. apply env_only_selects, Henv.
  - intros fs el ep. apply after_flag_selects, HP.
Qed.

Lemma loop_body_quiet fuel n step l (w : W) :
  Trainer.training_flag_of (ReplayMemory.len (w_memory w)) = false
  \/ (step mod Trainer.policy_network_update)%N <> 0%N ->
  quiet w (Trainer.loop_body fuel n step l w).2.
Proof.
  intros Hoff. apply loop_body_sat; [typeclasses eauto | |].
  - apply env_only_quiet.
  - intros fs el ep. apply after_flag_quiet, Hoff.
Qed.

(** The reads of one iteration, against the threshold of line 201. *)
Lemma loop_body_reads_gated fuel n step l (w : W) :
  ReplayMemory.wf (w_memory w) ->
  exists new,
    w_sample_calls (Trainer.loop_body fuel n step l w).2
    = w_sample_calls w ++ new
    /\ Forall (fun sz =>
                 (Trainer.warmup_threshold < Z.of_nat sz)%Z
                 /\ (Trainer.warmup_threshold
                     < ReplayMemory.len (w_memory w))%Z
                 /\ (step mod Trainer.policy_network_update)%N = 0%N) new
    /\ ((ReplayMemory.len (w_memory w) <= Trainer.warmup_threshold)%Z ->
        new = []
        /\ w_policy (Trainer.loop_body fuel n step l w).2 = w_policy w
        /\ w_optimizer (Trainer.loop_body fuel n step l w).2
           = w_optimizer w).
Proof.
  intros Hwf.
  assert (Hquiet :
    Trainer.training_flag_of (ReplayMemory.len (w_memory w)) = false
    \/ (step mod Trainer.policy_network_update)%N <> 0%N ->
    exists new,
      w_sample_calls (Trainer.loop_body fuel n step l w).2
      = w_sample_calls w ++ new
      /\ new = []
      /\ w_policy (Trainer.loop_body fuel n step l w).2 = w_policy w
      /\ w_optimizer (Trainer.loop_body fuel n step l w).2 = w_optimizer w).
  { intros Hoff.
    destruct (loop_body_quiet fuel n step l w Hoff) as (Hs & Hp & Ho & _).
    exists []. rewrite app_nil_r. repeat split; assumption. }
  unfold Trainer.training_flag_of in Hquiet.
  destruct (Z.ltb_spec Trainer.warmup_threshold
              (ReplayMemory.len (w_memory w))) as [Hon|Hoff].
  - destruct (N.eq_dec (step mod Trainer.policy_network_update)%N 0%N)
      as [Hstep|Hstep].
    + destruct (loop_body_reads fuel n step l w) as (new & Hs & Hm).
      destruct (Hm Hwf) as (_ & _ & Hall).
      exists new. split; [exact Hs|]. split; [|intros Hle; lia].
      eapply Forall_impl; [exact Hall|]. intros sz Hsz. cbn beta in *.
      unfold ReplayMemory.len in *. repeat split; [lia | lia | exact Hstep].
    + destruct (Hquiet (or_intror Hstep)) as (new & Hs & -> & Hp & Ho).
      exists []. split; [exact Hs|]. split; [constructor|].
      intros _. repeat split; assumption.
  - destruct (Hquiet (or_introl eq_refl)) as (new & Hs & -> & Hp & Ho).
    exists []. split; [exact Hs|]. split; [constructor|].
    intros _. repeat split; assumption.
Qed.

(** *** The calls of [select_action] *)

Lemma bind_selects_first {A B} (P : N * bool -> Prop) (c : M W A)
    (k : A -> M W B) (call : N * bool) :
  (forall w, w_select_calls (c w).2 = w_select_calls w ++ [call]) ->
  (forall a, sat (selects_appended P) (k a)) ->
  forall w, exists rest,
    w_select_calls (bind c k w).2 = w_select_calls w ++ call :: rest
    /\ Forall P rest.
Proof.
  intros Hc Hk w. unfold bind. specialize (Hc w).
  destruct (c w) as [[a|e|] w1]; cbn [snd] in *;
    try (exists []; split; [exact Hc | constructor]).
  destruct (Hk a w1) as (rest & Hs & Hall).
  exists rest. split; [|exact Hall].
  rewrite Hs, Hc, <- app_assoc. reflexivity.
Qed.

Lemma do_select_action_log sel st g flag (w : W) :
  w_select_calls (Trainer.do_select_action sel st g flag w).2
  = w_select_calls w ++ [(g, flag)].
Proof.
  unfold Trainer.do_select_action.
  destruct (ActionSelector.select_action sel (w_policy w) st g flag (w_rng w))
    as [[a|e] g']; reflexivity.
Qed.

Lemma after_flag_first_call fuel n step flag fs el ep (w : W) :
  exists rest,
    w_select_calls (Trainer.after_flag fuel n step flag fs el ep w).2
    = w_select_calls w
      ++ ((step + Trainer.previous_experience)%N, flag) :: rest
    /\ Forall (fun call =>
                 call = ((step + Trainer.previous_experience)%N, flag)) rest.
Proof.
  unfold Trainer.after_flag. apply bind_selects_first.
  - apply do_select_action_log.
  - intros a. script.
Qed.

Lemma noop_steps_returns wr n fs d (w : W) :
  exists r w1,
    Trainer.noop_steps wr n fs d w = (Returned r, w1) /\ env_only w w1.
Proof.
  revert fs d w. induction n as [|k IH]; intros fs d w; simpl.
  - exists (fs, d), w. split; [reflexivity | reflexivity].
  - unfold bind. pose proof (do_env_step_env wr 0 w) as Hstep.
    unfold Trainer.do_env_step in *.
    destruct (env_step wr (w_env w) 0) as [e [[pixels reward] d']].
    cbn [snd] in Hstep.
    destruct (IH (deque_append Trainer.frame_stack_size fs
                    (get_frame_tensor pixels)) d'
                 (Trainer.with_env w e)) as (r & w1 & Hrun & Henv).
    exists r, w1. split; [exact Hrun|].
    exact (PreOrder_Transitive _ _ _ Hstep Henv).
Qed.

Lemma episode_start_returns l (w : W) :
  exists r w1,
    Trainer.episode_start l w = (Returned r, w1) /\ env_only w w1.
Proof.
  unfold Trainer.episode_start. destruct (Trainer.done l).
  - unfold bind. pose proof (do_env_reset_env TrainWrap w) as Hreset.
    unfold Trainer.do_env_reset in *.
    destruct (env_reset TrainWrap (w_env w)) as [e o]. cbn [snd] in Hreset.
    destruct (noop_steps_returns TrainWrap 10 (Trainer.frame_stack l) true
                (Trainer.with_env w e)) as (r & w1 & Hrun & Henv).
    rewrite Hrun. eexists _, w1. split; [reflexivity|].
    exact (PreOrder_Transitive _ _ _ Hreset Henv).
  - eexists _, w. split; [reflexivity | reflexivity].
Qed.

(** Every iteration calls [select_action], first from line 207 and then
    from the evaluation run if there is one, and every such call passes
    [step + previous_experience] and the flag of line 201. *)
Lemma loop_body_calls fuel n step l (w : W) :
  exists rest,
    w_select_calls (Trainer.loop_body fuel n step l w).2
    = w_select_calls w
      ++ ((step + Trainer.previous_experience)%N,
          Trainer.training_flag_of (ReplayMemory.len (w_memory w))) :: rest
    /\ Forall (fun call =>
                 call = ((step + Trainer.previous_experience)%N,
                         Trainer.training_flag_of
                           (ReplayMemory.len (w_memory w)))) rest.
Proof.
  unfold Trainer.loop_body, bind.
  destruct (episode_start_returns l w) as ([[fs el] ep] & w1 & -> & [e ->]).
  unfold Trainer.get_memory_len. cbn [w_memory].
  destruct (after_flag_first_call fuel n step
              (Trainer.training_flag_of (ReplayMemory.len (w_memory w)))
              fs el ep
              (World e (w_rng w) (w_memory w) (w_policy w) (w_target w)
                 (w_optimizer w) (w_files w) (w_score_log w)
                 (w_sample_calls w) (w_select_calls w)))
    as (rest & Hs & Hall).
  exists rest. split; [exact Hs | exact Hall].
Qed.

Lemma run_steps_selects P fuel n count step l :
  (forall k flag, P ((k + Trainer.previous_experience)%N, flag)) ->
  sat (selects_appended P) (Trainer.run_steps fuel n count step l).
Proof.
  intros HP. revert step l.
  induction count as [|count IH]; intros step l; simpl.
  - apply sat_ret. typeclasses eauto.
  - apply sat_bind; [typeclasses eauto | |].
    + apply loop_body_selects. intros flag. apply HP.
    + intros l'. apply IH.
Qed.

(** *** The optimisation step *)

Lemma rmapM_inv {A B} (f : A -> result B) (l : list A) (ys : list B) :
  rmapM f l = Ok ys -> Forall2 (fun x y => f x = Ok y) l ys.
Proof.
  revert ys. induction l as [|x xs IH]; simpl; intros ys Hrun.
  - injection Hrun as <-. constructor.
  - destruct (f x) as [y|e] eqn:Hy; simpl in Hrun; [|discriminate].
    destruct (rmapM f xs) as [ys'|e] eqn:Hys; simpl in Hrun; [|discriminate].
    injection Hrun as <-. constructor; [exact Hy | apply IH; reflexivity].
Qed.

Lemma Qmax_choice (x y : Q) : Qmax x y = x \/ Qmax x y = y.
Proof.
  unfold Qmax, GenericMinMax.gmax. destruct (x ?= y)%Q; auto.
Qed.

Lemma fold_left_Qmax_spec (xs : list Q) (x : Q) :
  (fold_left Qmax xs x = x \/ In (fold_left Qmax xs x) xs)
  /\ (x <= fold_left Qmax xs x)%Q
  /\ Forall (fun v => (v <= fold_left Qmax xs x)%Q) xs.
Proof.
  revert x. induction xs as [|y ys IH]; intros x; simpl.
  - split; [left; reflexivity|]. split; [apply Qle_refl | constructor].
  - destruct (IH (Qmax x y)) as (Hin & Hle & Hall).
    split; [|split].
    + destruct Hin as [Heq|Hin]; [|right; right; exact Hin].
      rewrite Heq.
      destruct (Qmax_choice x y) as [E|E]; [left | right; left]; congruence.
    + eapply Qle_trans; [apply Q.le_max_l | exact Hle].
    + constructor; [|exact Hall].
      eapply Qle_trans; [apply Q.le_max_r | exact Hle].
Qed.

(** [row_max] returns an entry of the row that bounds every entry. *)
Lemma row_max_spec (row : list Q) (m : Q) :
  Trainer.row_max row = Ok m ->
  In m row /\ Forall (fun v => (v <= m)%Q) row.
Proof.
  destruct row as [|x xs]; simpl; [discriminate|].
  intros Hm. injection Hm as <-.
  destruct (fold_left_Qmax_spec xs x) as (Hin & Hle & Hall).
  split.
  - destruct Hin as [->|Hin]; [left; reflexivity | right; exact Hin].
  - constructor; assumption.
Qed.

Lemma expected_lookup (t : list Q) (ds : list bool) (rs : list Q) (j : nat)
    (tmax : Q) (d : bool) (r : Q) :
  t !! j = Some tmax -> ds !! j = Some d -> rs !! j = Some r ->
  Trainer.expected_state_action_values t ds rs !! j
  = Some (Trainer.bellman tmax d r).
Proof.
  revert ds rs j.
  induction t as [|t0 t IH]; intros [|d0 ds] [|r0 rs] [|j]; simpl;
    try discriminate.
  - intros Ht Hd Hr. congruence.
  - apply IH.
Qed.

(** Line 125 is the Bellman target of the specification. *)
Lemma bellman_target (tmax : Q) (d : bool) (r : Q) :
  Trainer.bellman tmax d r
  == r + Trainer.gamma * (1 - Trainer.Q_of_bool d) * tmax.
Proof. unfold Trainer.bellman. ring. Qed.

Lemma gathered_rows (net : Net) (ss : list (list Frame)) (acts : list nat)
    (q : list Q) :
  rmapM (fun '(s, a) => Trainer.gather_row (forward net s) a) (zip ss acts)
  = Ok q ->
  zip_with (fun s a => default 0%Q (forward net s !! a)) ss acts = q.
Proof.
  revert acts q. induction ss as [|s ss IH]; intros [|a acts] q; simpl;
    try (intros Hq; injection Hq as <-; reflexivity).
  unfold Trainer.gather_row at 1.
  destruct (forward net s !! a) as [v|]; simpl; [|discriminate].
  destruct (rmapM _ (zip ss acts)) as [q'|e] eqn:Hrest; simpl; [|discriminate].
  intros Hq. injection Hq as <-. f_equal. apply IH, Hrest.
Qed.

Lemma clamp_bounds (lo hi x : Q) :
  (lo <= hi)%Q -> (lo <= Trainer.clamp lo hi x <= hi)%Q.
Proof.
  intros Hle. unfold Trainer.clamp. split.
  - apply Q.min_glb; [apply Q.le_max_r | exact Hle].
  - apply Q.le_min_r.
Qed.

Lemma clamp_inside (lo hi x : Q) :
  (lo <= x <= hi)%Q -> Trainer.clamp lo hi x == x.
Proof.
  intros [Hlo Hhi]. unfold Trainer.clamp.
  rewrite (Q.max_l x lo Hlo). apply Q.min_l. exact Hhi.
Qed.

Lemma clip_gradients_bounds (grads : list Q) :
  Forall (fun x => (-1 <= x <= 1)%Q) (Trainer.clip_gradients grads).
Proof.
  unfold Trainer.clip_gradients. apply Forall_map, Forall_forall.
  intros x _. apply clamp_bounds. discriminate.
Qed.

(** What [optimize_model] does once the batch is there. *)
Lemma optimize_model_on (w : W) (b : ReplayMemory.batch Frame) (g' : Rng)
    (q t : list Q) :
  ReplayMemory.sample (w_memory w) Trainer.batch_size (w_rng w) = (Ok b, g') ->
  Trainer.q_values (w_policy w) b = Ok q ->
  Trainer.t_values (w_target w) b = Ok t ->
  Trainer.optimize_model true w
  = (Returned tt,
     let grads :=
       Trainer.clip_gradients
         (backward
            (Trainer.loss_fn b
               (Trainer.expected_state_action_values t
                  (ReplayMemory.b_done b) (ReplayMemory.b_reward b)))
            (w_policy w)) in
     World (w_env w) g' (w_memory w)
           (opt_step (w_optimizer w) (w_policy w) grads).2 (w_target w)
           (opt_step (w_optimizer w) (w_policy w) grads).1 (w_files w)
           (w_score_log w)
           (w_sample_calls w ++ [ReplayMemory.size (w_memory w)])
           (w_select_calls w)).
Proof.
  intros Hsample Hq Ht.
  unfold Trainer.optimize_model. cbn [negb].
  unfold bind, Trainer.do_sample. rewrite Hsample.
  cbn [lift ret Trainer.get_policy Trainer.get_target w_policy w_target].
  rewrite Hq, Ht. cbn [lift ret].
  unfold Trainer.do_optimizer_step.
  cbn [w_env w_rng w_memory w_policy w_target w_optimizer w_files
       w_score_log w_sample_calls w_select_calls].
  destruct (opt_step _ _ _) as [opt' net']. reflexivity.
Qed.

(** *** Observations that a script keeps *)

#[local] Abbreviation kept := (@Observe.kept Rng Env Frame Net Opt _).
#[local] Abbreviation files_elsewhere :=
  (@Observe.files_elsewhere Rng Env Frame Net Opt).
#[local] Abbreviation triple := (@Observe.triple Rng Env Frame Net Opt _).

#[local] Instance kept_preorder {B} (f : W -> B) : PreOrder (kept f).
Proof.
  split.
  - intros w. reflexivity.
  - intros w1 w2 w3 H12 H23. unfold Observe.kept in *. congruence.
Qed.

#[local] Instance files_elsewhere_preorder path :
  PreOrder (files_elsewhere path).
Proof.
  split.
  - intros w p _. reflexivity.
  - intros w1 w2 w3 H12 H23 p Hp. rewrite (H23 p Hp). apply H12, Hp.
Qed.

Lemma env_only_kept {B} (f : W -> B) :
  (forall w env, f (Trainer.with_env w env) = f w) ->
  forall w w', env_only w w' -> kept f w w'.
Proof. intros Hf w w' [env ->]. apply Hf. Qed.

Lemma kept_files_elsewhere path (w w' : W) :
  kept w_files w w' -> files_elsewhere path w w'.
Proof. intros Hk p _. unfold Observe.kept in Hk. now rewrite Hk. Qed.

Lemma do_save_policy_elsewhere path :
  sat (files_elsewhere path) (Trainer.do_save_policy path).
Proof.
  intros w p Hp. unfold Trainer.do_save_policy. cbn [snd w_files].
  apply lookup_insert_ne. congruence.
Qed.

(** A primitive effect that does not write the observed field. *)
Local Ltac kept_leaf :=
  lazymatch goal with
  | |- Observe.sat _ (Trainer.do_env_reset _) => idtac
  | |- Observe.sat _ (Trainer.do_env_step _ _) => idtac
  | |- Observe.sat _ (Trainer.do_wrap _) => idtac
  | |- Observe.sat _ (Trainer.do_select_action _ _ _ _) => idtac
  | |- Observe.sat _ (Trainer.do_push _ _ _ _) => idtac
  | |- Observe.sat _ (Trainer.do_sample _) => idtac
  | |- Observe.sat _ (Trainer.do_log_score _) => idtac
  | |- Observe.sat _ (Trainer.do_optimizer_step _) => idtac
  | |- Observe.sat _ Trainer.do_sync_target => idtac
  | |- Observe.sat _ (Trainer.do_save_policy _) => idtac
  end;
  let w := fresh "w" in
  intros w;
  unfold Trainer.do_env_reset, Trainer.do_env_step, Trainer.do_wrap,
    Trainer.do_select_action, Trainer.do_push, Trainer.do_sample,
    Trainer.do_log_score, Trainer.do_optimizer_step, Trainer.do_sync_target,
    Trainer.do_save_policy, Trainer.with_env, Observe.kept;
  repeat match goal with
         | |- context [let '(_, _) := ?e in _] =>
             lazymatch e with
             | (_, _) => fail
             | _ => destruct e
             end
         | |- context [lift ?r] =>
             lazymatch r with
             | Ok _ => fail
             | Raise _ => fail
             | _ => destruct r
             end
         end;
  reflexivity.

(** [script], with the leaves that keep an observation closed directly. *)
Local Ltac walk :=
  repeat first
    [ solve [kept_leaf]
    | solve [eauto with script]
    | apply sat_bind; [typeclasses eauto | | intros ?]
    | apply sat_ret; typeclasses eauto
    | apply sat_raise; typeclasses eauto
    | apply sat_diverge; typeclasses eauto
    | apply sat_lift; typeclasses eauto
    | apply get_policy_sat; typeclasses eauto
    | apply get_target_sat; typeclasses eauto
    | apply get_memory_len_sat; typeclasses eauto
    | apply sat_when_false; typeclasses eauto
    | apply sat_when; [typeclasses eauto |]
    | match goal with
      | |- Observe.sat _ (let '(_, _) := ?x in _) => destruct x
      | |- Observe.sat _ (if ?b then _ else _) => destruct b
      | |- Observe.sat _ (match ?o with Some _ => _ | None => _ end) =>
          destruct o
      end ].

Lemma sat_kept_elsewhere {A} path (c : M W A) :
  sat (kept w_files) c -> sat (files_elsewhere path) c.
Proof. apply sat_weaken, kept_files_elsewhere. Qed.

(** *** Rules for [triple] *)

Lemma triple_ret {A} (P : W -> Prop) (Q : A -> W -> Prop) (a : A) :
  (forall w, P w -> Q a w) -> triple P (ret a) Q.
Proof. intros HPQ w HP a' w' Hrun. injection Hrun as <- <-. apply HPQ, HP. Qed.

Lemma triple_bind {A B} (P : W -> Prop) (Q1 : A -> W -> Prop)
    (Q : B -> W -> Prop) (c : M W A) (k : A -> M W B) :
  triple P c Q1 -> (forall a, triple (Q1 a) (k a) Q) -> triple P (bind c k) Q.
Proof.
  intros Hc Hk w HP b w' Hrun. unfold bind in Hrun.
  destruct (c w) as [[a|e|] w1] eqn:Hcw; try discriminate.
  eapply Hk; [eapply Hc; eassumption | exact Hrun].
Qed.

Lemma triple_weaken {A} (P P' : W -> Prop) (Q Q' : A -> W -> Prop)
    (c : M W A) :
  (forall w, P' w -> P w) -> (forall a w, Q a w -> Q' a w) ->
  triple P c Q -> triple P' c Q'.
Proof. intros HP HQ Hc w HP' a w' Hrun. eapply HQ, Hc; eauto. Qed.

Lemma triple_conj {A} (P : W -> Prop) (Q1 Q2 : A -> W -> Prop) (c : M W A) :
  triple P c Q1 -> triple P c Q2 -> triple P c (fun a w => Q1 a w /\ Q2 a w).
Proof. intros H1 H2 w HP a w' Hrun. split; [eapply H1 | eapply H2]; eauto. Qed.

(** What a script keeps, it keeps when it returns. *)
Lemma triple_kept {A B} (f : W -> B) (phi : B -> Prop) (c : M W A) :
  sat (kept f) c ->
  triple (fun w => phi (f w)) c (fun _ w' => phi (f w')).
Proof.
  intros Hc w HP a w' Hrun. specialize (Hc w). rewrite Hrun in Hc.
  cbn [snd] in Hc. unfold Observe.kept in Hc. rewrite Hc. exact HP.
Qed.

Lemma triple_when P (Q : unit -> W -> Prop) (b : bool) (c : M W unit) :
  (b = true -> triple P c Q) -> (b = false -> forall w, P w -> Q tt w) ->
  triple P (when b c) Q.
Proof.
  intros Hon Hoff. destruct b; [apply Hon; reflexivity|].
  apply triple_ret. apply Hoff. reflexivity.
Qed.

(** *** [evaluate] only moves the emulator, the random source and the logs *)

#[local] Abbreviation outside_evaluate :=
  (@Observe.outside_evaluate Rng Env Frame Net Opt).

Lemma eval_while_outside fuel sel step train fs d reward eps :
  sat (kept outside_evaluate)
      (Trainer.eval_while fuel sel step train fs d reward eps).
Proof.
  revert fs d reward eps.
  induction fuel as [|fuel IH]; intros fs d reward eps; simpl; walk.
Qed.

Lemma noop_steps_outside wr n fs d :
  sat (kept outside_evaluate) (Trainer.noop_steps wr n fs d).
Proof.
  revert fs d. induction n as [|n IH]; intros fs d; simpl; walk.
Qed.

#[local] Hint Resolve eval_while_outside noop_steps_outside : script.

Lemma eval_episodes_outside n fuel sel step train fs rewards eps :
  sat (kept outside_evaluate)
      (Trainer.eval_episodes n fuel sel step train fs rewards eps).
Proof.
  revert fs rewards eps.
  induction n as [|n IH]; intros fs rewards eps; simpl; walk.
Qed.

#[local] Hint Resolve eval_episodes_outside : script.

Lemma evaluate_outside fuel step n train ep :
  sat (kept outside_evaluate) (Trainer.evaluate fuel step n train ep).
Proof. unfold Trainer.evaluate. walk. Qed.

Lemma eval_episodes_score n fuel sel step train fs rewards eps :
  sat (kept w_score_log)
      (Trainer.eval_episodes n fuel sel step train fs rewards eps).
Proof.
  assert (Hnoop : forall wr k fs' d,
             sat (kept w_score_log) (Trainer.noop_steps wr k fs' d)).
  { intros wr k. induction k as [|k IH]; intros fs' d; simpl; walk. }
  assert (Hwhile : forall fs' d reward eps',
             sat (kept w_score_log)
                 (Trainer.eval_while fuel sel step train fs' d reward eps')).
  { induction fuel as [|fuel' IH]; intros fs' d reward eps'; simpl; walk. }
  revert fs rewards eps.
  induction n as [|n IH]; intros fs rewards eps; simpl; walk.
Qed.

(** [evaluate] writes one score record when it returns and none when it
    does not. *)
Lemma evaluate_effects fuel step n train ep (w : W) :
  outside_evaluate (Trainer.evaluate fuel step n train ep w).2
  = outside_evaluate w
  /\ match (Trainer.evaluate fuel step n train ep w).1 with
     | Returned _ =>
         exists mean e,
           w_score_log (Trainer.evaluate fuel step n train ep w).2
           = w_score_log w ++ [(mean, step, e)]
     | _ =>
         w_score_log (Trainer.evaluate fuel step n train ep w).2
         = w_score_log w
     end.
Proof.
  split; [apply evaluate_outside|].
  unfold Trainer.evaluate, bind, Trainer.do_wrap.
  pose proof (eval_episodes_score Trainer.num_eval_episode fuel
                (Trainer.action_selector n) step train [] [] None
                (Trainer.with_env w (wrap_deepmind EvalWrap (w_env w))))
    as Hlog.
  destruct (Trainer.eval_episodes _ _ _ _ _ _ _ _ _)
    as [[[rewards [e|]]|err|] w1]; cbn [fst snd] in *;
    unfold Observe.kept in Hlog; cbn [w_score_log Trainer.with_env] in Hlog.
  - eexists _, e. unfold Trainer.do_log_score. cbn [snd w_score_log].
    rewrite Hlog. reflexivity.
  - exact Hlog.
  - exact Hlog.
  - exact Hlog.
Qed.

(** *** What [optimize_model] leaves alone *)

Lemma optimize_model_outside train :
  sat (kept (fun w : W =>
               (w_env w, w_memory w, w_target w, w_files w, w_score_log w,
                w_select_calls w)))
      (Trainer.optimize_model train).
Proof. unfold Trainer.optimize_model. walk. Qed.

Lemma optimize_model_abnormal train (w : W) :
  (Trainer.optimize_model train w).1 <> Returned tt ->
  w_policy (Trainer.optimize_model train w).2 = w_policy w
  /\ w_optimizer (Trainer.optimize_model train w).2 = w_optimizer w.
Proof.
  unfold Trainer.optimize_model. destruct train; cbn [negb].
  - unfold bind, Trainer.do_sample.
    destruct (ReplayMemory.sample (w_memory w) Trainer.batch_size (w_rng w))
      as [[b|e] g']; cbn [lift ret raise fst snd]; [|intros _; split; reflexivity].
    unfold Trainer.get_policy, Trainer.get_target. cbn [w_policy w_target].
    destruct (Trainer.q_values (w_policy w) b) as [q|e];
      cbn [lift ret raise fst snd]; [|intros _; split; reflexivity].
    destruct (Trainer.t_values (w_target w) b) as [t|e];
      cbn [lift ret raise fst snd]; [|intros _; split; reflexivity].
    unfold Trainer.do_optimizer_step.
    destruct (opt_step _ _ _) as [o' p']. cbn [fst]. intros Hne.
    contradiction Hne. reflexivity.
  - intros Hne. contradiction Hne. reflexivity.
Qed.

Lemma optimize_model_never_diverges train (w : W) :
  (Trainer.optimize_model train w).1 <> OutOfFuel.
Proof.
  unfold Trainer.optimize_model. destruct train; cbn [negb]; [|discriminate].
  unfold bind, Trainer.do_sample.
  destruct (ReplayMemory.sample (w_memory w) Trainer.batch_size (w_rng w))
    as [[b|e] g']; cbn [lift ret raise fst snd]; [|discriminate].
  unfold Trainer.get_policy, Trainer.get_target. cbn [w_policy w_target].
  destruct (Trainer.q_values (w_policy w) b) as [q|e];
    cbn [lift ret raise fst snd]; [|discriminate].
  destruct (Trainer.t_values (w_target w) b) as [t|e];
    cbn [lift ret raise fst snd]; [|discriminate].
  unfold Trainer.do_optimizer_step.
  destruct (opt_step _ _ _) as [o' p']. discriminate.
Qed.

(** *** The periodic actions of an iteration *)

(** From what [evaluate] and [optimize_model] keep to any observation
    made of it. *)
Local Ltac from_outside :=
  lazymatch goal with
  | |- Observe.sat (Observe.kept _) (Trainer.evaluate _ _ _ _ _) =>
      eapply sat_weaken; [|apply evaluate_outside]
  | |- Observe.sat (Observe.kept _) (Trainer.optimize_model _) =>
      eapply sat_weaken; [|apply optimize_model_outside]
  end;
  let w := fresh "w" in
  let w' := fresh "w'" in
  let Hk := fresh "Hk" in
  intros w w' Hk;
  unfold Observe.kept, Observe.outside_evaluate in *;
  congruence.

(** [walk], stopping at [evaluate] and [optimize_model]. *)
Local Ltac stride :=
  repeat first
    [ solve [from_outside]
    | solve [kept_leaf]
    | apply sat_bind; [typeclasses eauto | | intros ?]
    | apply sat_ret; typeclasses eauto
    | apply sat_when_false; typeclasses eauto
    | apply sat_when; [typeclasses eauto |]
    | match goal with
      | |- Observe.sat _ (let '(_, _) := ?x in _) => destruct x
      end ].

Lemma after_flag_target fuel n step flag fs el ep :
  (step mod Trainer.target_network_update)%N <> 0%N ->
  sat (kept w_target) (Trainer.after_flag fuel n step flag fs el ep).
Proof.
  intros Hstep. unfold Trainer.after_flag.
  destruct (N.eqb_spec (step mod Trainer.target_network_update) 0)
    as [Heq|_]; [contradiction|].
  stride.
Qed.

Lemma after_flag_files_elsewhere fuel n step flag fs el ep :
  sat (files_elsewhere Trainer.new_policy_path)
      (Trainer.after_flag fuel n step flag fs el ep).
Proof.
  unfold Trainer.after_flag.
  repeat first
    [ apply do_save_policy_elsewhere
    | apply sat_kept_elsewhere; first [ solve [from_outside] | solve [kept_leaf] ]
    | apply sat_bind; [typeclasses eauto | | intros ?]
    | apply sat_ret; typeclasses eauto
    | apply sat_when; [typeclasses eauto |]
    | match goal with
      | |- Observe.sat _ (let '(_, _) := ?x in _) => destruct x
      end ].
Qed.

Lemma after_flag_files fuel n step flag fs el ep :
  (step mod Trainer.policy_saving_frequency)%N <> 0%N ->
  sat (kept w_files) (Trainer.after_flag fuel n step flag fs el ep).
Proof.
  intros Hstep. unfold Trainer.after_flag.
  destruct (N.eqb_spec (step mod Trainer.policy_saving_frequency) 0)
    as [Heq|_]; [contradiction|].
  stride.
Qed.

Lemma after_flag_score fuel n step flag fs el ep :
  (step mod Trainer.evaluation_frequency)%N <> 0%N ->
  sat (kept w_score_log) (Trainer.after_flag fuel n step flag fs el ep).
Proof.
  intros Hstep. unfold Trainer.after_flag.
  destruct (N.eqb_spec (step mod Trainer.evaluation_frequency) 0)
    as [Heq|_]; [contradiction|].
  stride.
Qed.

(** *** What an iteration that returns has done *)

Lemma bind_returned {A B} (c : M W A) (k : A -> M W B) (w w' : W) (b : B) :
  bind c k w = (Returned b, w') ->
  exists a w1, c w = (Returned a, w1) /\ k a w1 = (Returned b, w').
Proof.
  unfold bind. destruct (c w) as [[a|e|] w1]; try discriminate.
  intros Hk. exists a, w1. split; [reflexivity | exact Hk].
Qed.

Lemma bind_eq {A B} (c : M W A) (k : A -> M W B) (w w1 : W) (a : A) :
  c w = (Returned a, w1) -> bind c k w = k a w1.
Proof. intros Hc. unfold bind. rewrite Hc. reflexivity. Qed.

Lemma triple_bind_any {A B} (P : W -> Prop) (Q : B -> W -> Prop)
    (c : M W A) (k : A -> M W B) :
  (forall a, triple (fun _ => True) (k a) Q) -> triple P (bind c k) Q.
Proof.
  intros Hk. apply (triple_bind P (fun _ _ => True)); [|exact Hk].
  intros w _ a w' _. exact I.
Qed.

Lemma triple_assume {A} (phi : Prop) (P : W -> Prop) (c : M W A)
    (Q : A -> W -> Prop) :
  (phi -> triple P c Q) -> triple (fun w => P w /\ phi) c Q.
Proof. intros Hc w [HP Hphi]. apply Hc; assumption. Qed.

Lemma triple_get_len {B} (P : W -> Prop) (k : Z -> M W B)
    (Q : B -> W -> Prop) :
  (forall len, triple P (k len) Q) ->
  triple P (bind Trainer.get_memory_len k) Q.
Proof.
  intros Hk w HP b w' Hrun. unfold bind, Trainer.get_memory_len in Hrun.
  eapply Hk; eassumption.
Qed.

Lemma length_deque_append {A} (maxlen : nat) (d : list A) (x : A) :
  length (deque_append maxlen d x) = Nat.min (length d + 1) maxlen.
Proof.
  unfold deque_append. rewrite length_drop, length_app. simpl. lia.
Qed.

Lemma noop_steps_length wr n fs d :
  triple (fun _ => True) (Trainer.noop_steps wr n fs d)
         (fun r _ =>
            length r.1
            = match n with
              | 0 => length fs
              | S _ => Nat.min (length fs + n) Trainer.frame_stack_size
              end).
Proof.
  revert fs d. induction n as [|n IH]; intros fs d; simpl.
  - apply triple_ret. intros w _. reflexivity.
  - apply triple_bind_any. intros [[pixels reward] d'].
    eapply triple_weaken; [intros w Hw; exact Hw | | apply IH].
    intros r w Hr. cbn beta in *. rewrite Hr, length_deque_append.
    unfold Trainer.frame_stack_size. destruct n; lia.
Qed.

Lemma episode_start_kept_memory l :
  sat (kept w_memory) (Trainer.episode_start l).
Proof.
  eapply sat_weaken; [|apply episode_start_env].
  apply env_only_kept. reflexivity.
Qed.

Lemma episode_start_values l :
  triple (fun _ => True) (Trainer.episode_start l)
         (fun r _ =>
            r.1.2 = (if Trainer.done l then 0%N else Trainer.episode_len l)
            /\ r.2 = (if Trainer.done l then (Trainer.episode l + 1)%N
                      else Trainer.episode l)
            /\ (Trainer.done l = true
                \/ length (Trainer.frame_stack l) = Trainer.frame_stack_size ->
                length r.1.1 = Trainer.frame_stack_size)
            /\ (Trainer.done l = false -> r.1.1 = Trainer.frame_stack l)).
Proof.
  unfold Trainer.episode_start. destruct (Trainer.done l).
  - apply triple_bind_any. intros _.
    apply (triple_bind _ (fun r _ =>
             length r.1
             = Nat.min (length (Trainer.frame_stack l) + 10)
                 Trainer.frame_stack_size));
      [apply (noop_steps_length TrainWrap 10)|].
    intros r. apply triple_ret. intros w Hr. cbn [fst snd].
    split; [reflexivity|]. split; [reflexivity|]. split; [|discriminate].
    intros Hfull. rewrite Hr. unfold Trainer.frame_stack_size in *. lia.
  - apply triple_ret. intros w _. cbn [fst snd].
    split; [reflexivity|]. split; [reflexivity|].
    split; [|reflexivity]. intros [Hd|Hlen]; [discriminate | exact Hlen].
Qed.

Lemma when_kept_memory_eval (b : bool) fuel step n train ep :
  sat (kept w_memory) (when b (Trainer.evaluate fuel step n train ep)).
Proof. stride. Qed.

Lemma when_kept_memory_opt (b : bool) train :
  sat (kept w_memory) (when b (Trainer.optimize_model train)).
Proof. stride. Qed.

Lemma when_kept_memory_sync (b : bool) :
  sat (kept w_memory) (when b Trainer.do_sync_target).
Proof. stride. Qed.

Lemma when_kept_memory_save (b : bool) path :
  sat (kept w_memory) (when b (Trainer.do_save_policy path)).
Proof. stride. Qed.

Lemma after_flag_returns fuel n step flag fs el ep m0 :
  triple (fun w => w_memory w = m0)
         (Trainer.after_flag fuel n step flag fs el ep)
         (fun l' w' =>
            (exists action reward,
                w_memory w'
                = ReplayMemory.push m0 (Trainer.frame_stack l') action reward
                    (Trainer.done l'))
            /\ Trainer.episode l' = ep
            /\ Trainer.episode_len l' = (el + 1)%N
            /\ (exists x,
                  Trainer.frame_stack l'
                  = deque_append Trainer.frame_stack_size fs x)).
Proof.
  unfold Trainer.after_flag.
  apply (triple_bind _ (fun _ w => w_memory w = m0)).
  { apply (triple_kept w_memory (fun m => m = m0)). stride. }
  intros [action eps].
  apply (triple_bind _ (fun _ w => w_memory w = m0)).
  { apply (triple_kept w_memory (fun m => m = m0)). stride. }
  intros [[pixels reward] done']. cbv zeta.
  set (fs' := deque_append Trainer.frame_stack_size fs
                (get_frame_tensor pixels)).
  set (m1 := ReplayMemory.push m0 fs' action reward done').
  apply (triple_bind _ (fun _ w => w_memory w = m1)).
  { intros w Hw a w' Hrun. unfold Trainer.do_push in Hrun.
    injection Hrun as _ <-. cbn [w_memory]. rewrite Hw. reflexivity. }
  intros _.
  apply (triple_bind _ (fun _ w => w_memory w = m1)).
  { apply (triple_kept w_memory (fun m => m = m1)), when_kept_memory_eval. }
  intros _.
  apply (triple_bind _ (fun _ w => w_memory w = m1)).
  { apply (triple_kept w_memory (fun m => m = m1)), when_kept_memory_opt. }
  intros _.
  apply (triple_bind _ (fun _ w => w_memory w = m1)).
  { apply (triple_kept w_memory (fun m => m = m1)), when_kept_memory_sync. }
  intros _.
  apply (triple_bind _ (fun _ w => w_memory w = m1)).
  { apply (triple_kept w_memory (fun m => m = m1)), when_kept_memory_save. }
  intros _.
  apply triple_ret. intros w Hw.
  cbn [Trainer.frame_stack Trainer.done Trainer.episode Trainer.episode_len].
  split; [exists action, reward; exact Hw|].
  split; [reflexivity|]. split; [reflexivity|].
  exists (get_frame_tensor pixels). reflexivity.
Qed.

Lemma loop_body_returns fuel n step l (w w' : W) l' :
  Trainer.loop_body fuel n step l w = (Returned l', w') ->
  (exists action reward,
      w_memory w'
      = ReplayMemory.push (w_memory w) (Trainer.frame_stack l') action reward
          (Trainer.done l'))
  /\ Trainer.episode l'
     = (if Trainer.done l then (Trainer.episode l + 1)%N
        else Trainer.episode l)
  /\ Trainer.episode_len l'
     = (if Trainer.done l then 1%N else (Trainer.episode_len l + 1)%N)
  /\ (Trainer.done l = true
      \/ length (Trainer.frame_stack l) = Trainer.frame_stack_size ->
      length (Trainer.frame_stack l') = Trainer.frame_stack_size)
  /\ (Trainer.done l = false ->
      exists x,
        Trainer.frame_stack l'
        = deque_append Trainer.frame_stack_size (Trainer.frame_stack l) x).
Proof.
  intros Hrun.
  assert (Hspec :
    triple (fun w0 => w_memory w0 = w_memory w)
      (Trainer.loop_body fuel n step l)
      (fun l' w' =>
         (exists action reward,
             w_memory w'
             = ReplayMemory.push (w_memory w) (Trainer.frame_stack l')
                 action reward (Trainer.done l'))
         /\ Trainer.episode l'
            = (if Trainer.done l then (Trainer.episode l + 1)%N
               else Trainer.episode l)
         /\ Trainer.episode_len l'
            = (if Trainer.done l then 1%N
               else (Trainer.episode_len l + 1)%N)
         /\ (Trainer.done l = true
             \/ length (Trainer.frame_stack l) = Trainer.frame_stack_size ->
             length (Trainer.frame_stack l') = Trainer.frame_stack_size)
         /\ (Trainer.done l = false ->
             exists x,
               Trainer.frame_stack l'
               = deque_append Trainer.frame_stack_size
                   (Trainer.frame_stack l) x))).
  { unfold Trainer.loop_body.
    eapply triple_bind.
    - apply triple_conj.
      + apply (triple_kept w_memory (fun m => m = w_memory w)),
          episode_start_kept_memory.
      + eapply triple_weaken; [| |apply episode_start_values].
        * intros w0 _. exact I.
        * intros a w0 Ha. exact Ha.
    - intros [[fs el] ep]. cbn [fst snd].
      apply (triple_assume
               (el = (if Trainer.done l then 0%N else Trainer.episode_len l)
                /\ ep = (if Trainer.done l then (Trainer.episode l + 1)%N
                         else Trainer.episode l)
                /\ (Trainer.done l = true
                    \/ length (Trainer.frame_stack l)
                       = Trainer.frame_stack_size ->
                    length fs = Trainer.frame_stack_size)
                /\ (Trainer.done l = false -> fs = Trainer.frame_stack l))
               (fun w0 => w_memory w0 = w_memory w)).
      intros (Hel & Hep & Hlen & Hfs).
      apply triple_get_len. intros len.
      eapply triple_weaken;
        [ | | apply (after_flag_returns fuel n step
                       (Trainer.training_flag_of len) fs el ep
                       (w_memory w)) ].
      + intros w0 Hm. exact Hm.
      + intros l0 w0 (Hpush & He & Hl & [x Hx]). cbn beta.
        split; [exact Hpush|]. split; [rewrite He; exact Hep|].
        split; [rewrite Hl, Hel; destruct (Trainer.done l); reflexivity|].
        split.
        * intros Hfull. rewrite Hx, length_deque_append, (Hlen Hfull).
          reflexivity.
        * intros Hd. exists x. rewrite Hx, (Hfs Hd). reflexivity. }
  exact (Hspec w eq_refl l' w' Hrun).
Qed.

Lemma when_save_keeps_nets (b : bool) path :
  sat (kept (fun w : W => (w_target w, w_policy w)))
      (when b (Trainer.do_save_policy path)).
Proof. stride. Qed.

Lemma after_flag_syncs fuel n step flag fs el ep :
  (step mod Trainer.target_network_update)%N = 0%N ->
  triple (fun _ => True) (Trainer.after_flag fuel n step flag fs el ep)
         (fun _ w' => w_target w' = w_policy w').
Proof.
  intros Hstep. unfold Trainer.after_flag.
  apply triple_bind_any. intros [action eps].
  apply triple_bind_any. intros [[pixels reward] done']. cbv zeta.
  do 3 (apply triple_bind_any; intros _).
  rewrite Hstep. cbn [N.eqb when].
  apply (triple_bind _ (fun _ w => w_target w = w_policy w)).
  { intros w _ a w' Hrun. unfold Trainer.do_sync_target in Hrun.
    injection Hrun as _ <-. reflexivity. }
  intros _.
  apply (triple_bind _ (fun _ w => w_target w = w_policy w)).
  { apply (triple_kept (fun w : W => (w_target w, w_policy w))
             (fun p => p.1 = p.2)), when_save_keeps_nets. }
  intros _. apply triple_ret. intros w Hw. exact Hw.
Qed.

Lemma after_flag_saves fuel n step flag fs el ep :
  (step mod Trainer.policy_saving_frequency)%N = 0%N ->
  triple (fun _ => True) (Trainer.after_flag fuel n step flag fs el ep)
         (fun _ w' =>
            w_files w' !! Trainer.new_policy_path = Some (w_policy w')).
Proof.
  intros Hstep. unfold Trainer.after_flag.
  apply triple_bind_any. intros [action eps].
  apply triple_bind_any. intros [[pixels reward] done']. cbv zeta.
  do 4 (apply triple_bind_any; intros _).
  rewrite Hstep. cbn [N.eqb when].
  apply (triple_bind _
           (fun _ w =>
              w_files w !! Trainer.new_policy_path = Some (w_policy w))).
  { intros w _ a w' Hrun. unfold Trainer.do_save_policy in Hrun.
    injection Hrun as _ <-. cbn [w_files w_policy].
    apply lookup_insert_eq. }
  intros _. apply triple_ret. intros w Hw. exact Hw.
Qed.

Lemma loop_body_triple_any fuel n step l (Q : Trainer.locals -> W -> Prop) :
  (forall flag fs el ep,
      triple (fun _ => True)
             (Trainer.after_flag fuel n step flag fs el ep) Q) ->
  triple (fun _ => True) (Trainer.loop_body fuel n step l) Q.
Proof.
  intros Hafter. unfold Trainer.loop_body.
  apply triple_bind_any. intros [[fs el] ep].
  apply triple_get_len. intros len. apply Hafter.
Qed.

Lemma paths_differ : Trainer.pretrained_policy_path <> Trainer.new_policy_path.
Proof. apply String.eqb_neq. reflexivity. Qed.

Lemma loop_body_files_elsewhere fuel n step l :
  sat (files_elsewhere Trainer.new_policy_path)
      (Trainer.loop_body fuel n step l).
Proof.
  intros w. apply loop_body_sat; [typeclasses eauto | |].
  - intros w1 w2 Henv. apply kept_files_elsewhere.
    revert Henv. apply env_only_kept. reflexivity.
  - intros fs el ep. apply after_flag_files_elsewhere.
Qed.

Lemma run_steps_files_elsewhere fuel n count step l :
  sat (files_elsewhere Trainer.new_policy_path)
      (Trainer.run_steps fuel n count step l).
Proof.
  revert step l. induction count as [|count IH]; intros step l; simpl.
  - apply sat_ret. typeclasses eauto.
  - apply sat_bind; [typeclasses eauto | apply loop_body_files_elsewhere |].
    intros l'. apply IH.
Qed.

(** X1.  A checkpoint written by the loop is what a restart resumes from:
    when no pretrained file is on disk, after an iteration on a step
    divisible by [policy_saving_frequency] that runs to its end,
    [load_pretrained_model] on the files left behind returns the policy
    network as that iteration left it. *)
Theorem checkpoint_resumes_training fuel n step l (w w' : W) l'
    (model : Net) :
  w_files w !! Trainer.pretrained_policy_path = None ->
  (step mod Trainer.policy_saving_frequency)%N = 0%N ->
  Trainer.loop_body fuel n step l w = (Returned l', w') ->
  w_files w' !! Trainer.new_policy_path = Some (w_policy w')
  /\ Trainer.load_pretrained_model (w_files w') model = Ok (w_policy w').
Proof.
  intros Hnone Hstep Hrun.
  assert (Hsaved : w_files w' !! Trainer.new_policy_path
                   = Some (w_policy w')).
  { refine (loop_body_triple_any fuel n step l
              (fun _ w0 =>
                 w_files w0 !! Trainer.new_policy_path = Some (w_policy w0))
              _ w I l' w' Hrun).
    intros flag fs el ep. apply after_flag_saves, Hstep. }
  split; [exact Hsaved|].
  pose proof (loop_body_files_elsewhere fuel n step l w
                Trainer.pretrained_policy_path paths_differ) as Hpre.
  rewrite Hrun in Hpre. cbn [snd] in Hpre.
  unfold Trainer.load_pretrained_model. rewrite Hpre, Hnone, Hsaved.
  reflexivity.
Qed.

(** *** The score log is only appended to *)

#[local] Abbreviation score_extended :=
  (@Observe.score_extended Rng Env Frame Net Opt).

#[local] Instance score_extended_preorder : PreOrder score_extended.
Proof.
  split.
  - intros w. exists []. rewrite app_nil_r. reflexivity.
  - intros w1 w2 w3 [n1 H1] [n2 H2]. exists (n1 ++ n2).
    rewrite H2, H1, app_assoc. reflexivity.
Qed.

Lemma kept_score_extended (w w' : W) :
  kept w_score_log w w' -> score_extended w w'.
Proof.
  intros Hk. exists []. unfold Observe.kept in Hk.
  rewrite Hk, app_nil_r. reflexivity.
Qed.

Lemma sat_score_kept {A} (c : M W A) :
  sat (kept w_score_log) c -> sat score_extended c.
Proof. apply sat_weaken, kept_score_extended. Qed.

Lemma evaluate_score_extended fuel step n train ep :
  sat score_extended (Trainer.evaluate fuel step n train ep).
Proof.
  intros w. destruct (evaluate_effects fuel step n train ep w) as [_ Hlog].
  destruct (Trainer.evaluate fuel step n train ep w).1 as [[]|e|].
  - destruct Hlog as (mean & e & Hlog). eexists. exact Hlog.
  - apply kept_score_extended, Hlog.
  - apply kept_score_extended, Hlog.
Qed.

Lemma after_flag_score_extended fuel n step flag fs el ep :
  sat score_extended (Trainer.after_flag fuel n step flag fs el ep).
Proof.
  unfold Trainer.after_flag.
  repeat first
    [ apply evaluate_score_extended
    | apply sat_score_kept; first [ solve [from_outside] | solve [kept_leaf] ]
    | apply sat_bind; [typeclasses eauto | | intros ?]
    | apply sat_ret; typeclasses eauto
    | apply sat_when; [typeclasses eauto |]
    | match goal with
      | |- Observe.sat _ (let '(_, _) := ?x in _) => destruct x
      end ].
Qed.

Lemma run_steps_score_extended fuel n count step l :
  sat score_extended (Trainer.run_steps fuel n count step l).
Proof.
  revert step l. induction count as [|count IH]; intros step l; simpl.
  - apply sat_ret. typeclasses eauto.
  - apply sat_bind; [typeclasses eauto | | intros l'; apply IH].
    intros w. apply loop_body_sat; [typeclasses eauto | |].
    + intros w1 w2 Henv. apply kept_score_extended.
      revert Henv. apply env_only_kept. reflexivity.
    + intros fs el ep. apply after_flag_score_extended.
Qed.

(** X2.  Of the checkpoint files the loop overwrites none but
    [new_policy_path], and the only other file it writes, the score log,
    is only appended to, however a run ends.  In particular a pretrained
    file outlives any run, and since [load_pretrained_model] looks at it
    first, a restart loads the pretrained weights and not the checkpoints
    of the run. *)
Theorem pretrained_file_shadows_checkpoints fuel n count step l (w : W)
    (state_dict model : Net) :
  w_files w !! Trainer.pretrained_policy_path = Some state_dict ->
  (forall p, p <> Trainer.new_policy_path ->
             w_files (Trainer.run_steps fuel n count step l w).2 !! p
             = w_files w !! p)
  /\ (exists new,
        w_score_log (Trainer.run_steps fuel n count step l w).2
        = w_score_log w ++ new)
  /\ Trainer.load_pretrained_model
       (w_files (Trainer.run_steps fuel n count step l w).2) model
     = Ok state_dict.
Proof.
  intros Hpre.
  pose proof (run_steps_files_elsewhere fuel n count step l w) as Hkeep.
  split; [exact Hkeep|].
  split; [apply (run_steps_score_extended fuel n count step l w)|].
  unfold Trainer.load_pretrained_model.
  rewrite (Hkeep _ paths_differ), Hpre. reflexivity.
Qed.

(** X3.  The target network changes only by the hard sync: an iteration
    on a step that is not a multiple of [target_network_update] leaves it
    as it was, however the iteration ends, and an iteration on a multiple
    that runs to its end leaves it equal to the policy network. *)
Theorem target_network_follows_sync_schedule fuel n step l (w : W) :
  ((step mod Trainer.target_network_update)%N <> 0%N ->
   w_target (Trainer.loop_body fuel n step l w).2 = w_target w)
  /\ ((step mod Trainer.target_network_update)%N = 0%N ->
      forall l' w',
        Trainer.loop_body fuel n step l w = (Returned l', w') ->
        w_target w' = w_policy w').
Proof.
  split.
  - intros Hstep.
    apply (loop_body_sat (kept w_target)).
    + apply env_only_kept. reflexivity.
    + intros fs el ep. apply after_flag_target, Hstep.
  - intros Hstep l' w' Hrun.
    refine (loop_body_triple_any fuel n step l
              (fun _ w0 => w_target w0 = w_policy w0) _ w I l' w' Hrun).
    intros flag fs el ep. apply after_flag_syncs, Hstep.
Qed.

(** X4.  An iteration that runs to its end has stored exactly one
    transition: the memory is the old one after one [push] of the frame
    window and the done flag the iteration hands to the next one.  The
    episode counter went up by one exactly when the iteration began with
    a reset, and the episode length restarts at 1 there and grows by one
    otherwise. *)
Theorem iteration_stores_one_transition fuel n step l (w w' : W) l' :
  Trainer.loop_body fuel n step l w = (Returned l', w') ->
  (exists action reward,
      w_memory w'
      = ReplayMemory.push (w_memory w) (Trainer.frame_stack l') action reward
          (Trainer.done l'))
  /\ Trainer.episode l'
     = (if Trainer.done l then (Trainer.episode l + 1)%N
        else Trainer.episode l)
  /\ Trainer.episode_len l'
     = (if Trainer.done l then 1%N else (Trainer.episode_len l + 1)%N).
Proof.
  intros Hrun.
  destruct (loop_body_returns fuel n step l w w' l' Hrun)
    as (Hpush & Hep & Hlen & _).
  split; [exact Hpush|]. split; [exact Hep | exact Hlen].
Qed.

(** X5.  The frame window is full whenever a state is built from it: a
    run that starts at an episode boundary, or with a full window, and
    runs to its end hands over a window of exactly [frame_stack_size]
    frames after every iteration, so every state given to [select_action]
    has [frame_stack_size - 1] frames and every stored sequence has
    [frame_stack_size]. *)
Theorem frame_window_stays_full fuel n count step l (w w' : W) l' :
  Trainer.done l = true
  \/ length (Trainer.frame_stack l) = Trainer.frame_stack_size ->
  Trainer.run_steps fuel n count step l w = (Returned l', w') ->
  (Trainer.done l' = true
   \/ length (Trainer.frame_stack l') = Trainer.frame_stack_size)
  /\ (0 < count ->
      length (Trainer.frame_stack l') = Trainer.frame_stack_size
      /\ length (drop 1 (Trainer.frame_stack l'))
         = Trainer.frame_stack_size - 1).
Proof.
  revert step l w. induction count as [|count IH]; intros step l w Hfull Hrun.
  - simpl in Hrun. injection Hrun as <- <-. split; [exact Hfull | lia].
  - simpl in Hrun.
    destruct (bind_returned _ _ _ _ _ Hrun) as (l1 & w1 & Hbody & Hrest).
    destruct (loop_body_returns fuel n step l w w1 l1 Hbody)
      as (_ & _ & _ & Hwin & _).
    specialize (Hwin Hfull).
    destruct (IH _ _ _ (or_intror Hwin) Hrest) as [Hinv Hpos].
    split; [exact Hinv|]. intros _.
    destruct count as [|count'].
    + simpl in Hrest. injection Hrest as <- <-.
      split; [exact Hwin|]. rewrite length_drop, Hwin. reflexivity.
    + apply Hpos. lia.
Qed.

(** X6.  [evaluate] has no effect on the replay memory, the two networks,
    the optimizer, the files or the record of memory reads, however it
    ends; it appends one record carrying the step it was given to the
    score log when it returns, and leaves the score log alone when it
    raises or does not come back. *)
Theorem evaluate_only_logs_a_score fuel step n train ep (w : W) :
  Observe.outside_evaluate (Trainer.evaluate fuel step n train ep w).2
  = Observe.outside_evaluate w
  /\ match (Trainer.evaluate fuel step n train ep w).1 with
     | Returned _ =>
         exists mean e,
           w_score_log (Trainer.evaluate fuel step n train ep w).2
           = w_score_log w ++ [(mean, step, e)]
     | _ =>
         w_score_log (Trainer.evaluate fuel step n train ep w).2
         = w_score_log w
     end.
Proof. apply evaluate_effects. Qed.

(** X7.  [optimize_model] never touches the emulator, the replay memory,
    the target network, the files or the score log, and it cannot loop;
    and whenever it does not return normally (the sampling or a forward
    pass raised) the policy network and the optimizer are as they were:
    a failed optimisation leaves no partial update. *)
Theorem optimize_model_fails_without_update train (w : W) :
  (w_env (Trainer.optimize_model train w).2,
   w_memory (Trainer.optimize_model train w).2,
   w_target (Trainer.optimize_model train w).2,
   w_files (Trainer.optimize_model train w).2,
   w_score_log (Trainer.optimize_model train w).2,
   w_select_calls (Trainer.optimize_model train w).2)
  = (w_env w, w_memory w, w_target w, w_files w, w_score_log w,
     w_select_calls w)
  /\ (Trainer.optimize_model train w).1 <> OutOfFuel
  /\ ((Trainer.optimize_model train w).1 <> Returned tt ->
      w_policy (Trainer.optimize_model train w).2 = w_policy w
      /\ w_optimizer (Trainer.optimize_model train w).2 = w_optimizer w).
Proof.
  split; [apply (optimize_model_outside train w)|].
  split; [apply optimize_model_never_diverges|].
  apply optimize_model_abnormal.
Qed.

(** X8.  Between the periodic actions nothing is written: an iteration on
    a step that is not a multiple of [evaluation_frequency] leaves the
    score log as it was, and one on a step that is not a multiple of
    [policy_saving_frequency] leaves every file as it was, however the
    iteration ends. *)
Theorem off_schedule_iteration_writes_nothing fuel n step l (w : W) :
  ((step mod Trainer.evaluation_frequency)%N <> 0%N ->
   w_score_log (Trainer.loop_body fuel n step l w).2 = w_score_log w)
  /\ ((step mod Trainer.policy_saving_frequency)%N <> 0%N ->
      w_files (Trainer.loop_body fuel n step l w).2 = w_files w).
Proof.
  split; intros Hstep.
  - apply (loop_body_sat (kept w_score_log)).
    + apply env_only_kept. reflexivity.
    + intros fs el ep. apply after_flag_score, Hstep.
  - apply (loop_body_sat (kept w_files)).
    + apply env_only_kept. reflexivity.
    + intros fs el ep. apply after_flag_files, Hstep.
Qed.

(** *** An evaluation in which no episode takes a step *)






(** *** The training flag under the configured constants *)

Lemma training_flag_positive (len : Z) :
  Trainer.training_flag_of len = true <-> (0 < len)%Z.
Proof.
  unfold Trainer.training_flag_of.
  change Trainer.warmup_threshold with 0%Z. apply Z.ltb_lt.
Qed.

(** X10.  With the configured constants the training flag of line 201 is
    true exactly when the memory holds a transition.  So on a well-formed
    memory an iteration that runs to its end leaves the flag true for the
    next one, and once true the flag is never false again, however an
    iteration ends: only iterations that find the memory empty run
    untrained. *)
Theorem training_flag_is_memory_nonempty fuel n step l (w : W) :
  ReplayMemory.wf (w_memory w) ->
  (Trainer.training_flag_of (ReplayMemory.len (w_memory w)) = true
   <-> 0 < ReplayMemory.size (w_memory w))
  /\ (forall l' w',
        Trainer.loop_body fuel n step l w = (Returned l', w') ->
        Trainer.training_flag_of (ReplayMemory.len (w_memory w')) = true)
  /\ (Trainer.training_flag_of (ReplayMemory.len (w_memory w)) = true ->
      Trainer.training_flag_of
        (ReplayMemory.len (w_memory (Trainer.loop_body fuel n step l w).2))
      = true).
Proof.
  intros Hwf. split; [|split].
  - rewrite training_flag_positive. unfold ReplayMemory.len. lia.
  - intros l' w' Hrun.
    destruct (loop_body_returns fuel n step l w w' l' Hrun)
      as ((action & reward & Hpush) & _).
    apply training_flag_positive. rewrite Hpush. unfold ReplayMemory.len.
    cbn [ReplayMemory.size ReplayMemory.push].
    pose proof (ReplayMemory.wf_cap _ Hwf). lia.
  - rewrite !training_flag_positive. unfold ReplayMemory.len.
    destruct (loop_body_reads fuel n step l w) as (new & _ & Hm).
    destruct (Hm Hwf) as (_ & Hle & _). lia.
Qed.

(** *** Evaluation terminates when episodes do *)

Section Termination.

Variable remaining : Env -> nat.
Variable bound : nat.
Hypothesis step_makes_progress :
  forall e a,
    (env_step EvalWrap e a).2.2 = true
    \/ remaining (env_step EvalWrap e a).1 < remaining e.
Hypothesis remaining_bounded : forall e, remaining e <= bound.

Lemma eval_while_terminates fuel sel step train fs d reward eps (w : W) :
  d = true \/ remaining (w_env w) < fuel ->
  (Trainer.eval_while fuel sel step train fs d reward eps w).1 <> OutOfFuel.
Proof.
  revert fs d reward eps w.
  induction fuel as [|fuel IH]; intros fs d reward eps w Hfuel.
  - destruct Hfuel as [-> | Hlt]; [discriminate | lia].
  - cbn [Trainer.eval_while]. destruct d; [discriminate|].
    destruct Hfuel as [Hd | Hlt]; [discriminate|].
    unfold bind at 1. unfold Trainer.do_select_action.
    destruct (ActionSelector.select_action sel (w_policy w) (drop 1 fs) step
                train (w_rng w)) as [[[action e]|err] g'];
      cbn [lift ret raise]; [|discriminate].
    unfold bind at 1. unfold Trainer.do_env_step. cbn [w_env].
    pose proof (step_makes_progress (w_env w) action) as Hprog.
    destruct (env_step EvalWrap (w_env w) action)
      as [e' [[pixels reward'] d']].
    cbn [fst snd] in Hprog. apply IH.
    destruct Hprog as [Hd | Hless]; [left; exact Hd | right].
    cbn [w_env Trainer.with_env]. lia.
Qed.

Lemma eval_episodes_terminates n fuel sel step train fs rewards eps (w : W) :
  bound < fuel ->
  (Trainer.eval_episodes n fuel sel step train fs rewards eps w).1
  <> OutOfFuel.
Proof.
  intros Hfuel. revert fs rewards eps w.
  induction n as [|n IH]; intros fs rewards eps w; [discriminate|].
  cbn [Trainer.eval_episodes].
  destruct (env_reset EvalWrap (w_env w)) as [e0 obs] eqn:Hreset.
  assert (Hr : Trainer.do_env_reset EvalWrap w
               = (Returned obs, Trainer.with_env w e0)).
  { unfold Trainer.do_env_reset. rewrite Hreset. reflexivity. }
  rewrite (bind_eq _ _ _ _ _ Hr).
  destruct (noop_steps_returns EvalWrap 10 fs false (Trainer.with_env w e0))
    as ([fs1 d1] & w1 & Hnoop & _).
  rewrite (bind_eq _ _ _ _ _ Hnoop). cbv beta iota.
  unfold bind at 1.
  pose proof (eval_while_terminates fuel sel step train fs1 d1 0%Q eps w1)
    as Hwhile.
  destruct (Trainer.eval_while fuel sel step train fs1 d1 0%Q eps w1)
    as [[[[fs2 reward] eps']|err|] w2]; cbn [fst] in *.
  - apply IH.
  - discriminate.
  - exfalso. apply Hwhile; [|reflexivity].
    right. pose proof (remaining_bounded (w_env w1)). lia.
Qed.

(** X11.  [evaluate] comes back whenever episodes end: if some measure of
    the emulator state, bounded by [bound], goes down at every evaluation
    step that does not end the episode, then with more than [bound]
    iterations allowed to each [while not done] loop the evaluation either
    returns or raises; it is never still looping. *)
Theorem evaluate_terminates_on_bounded_episodes fuel step n train ep (w : W) :
  bound < fuel ->
  (Trainer.evaluate fuel step n train ep w).1 <> OutOfFuel.
Proof.
  intros Hfuel. unfold Trainer.evaluate, bind, Trainer.do_wrap.
  pose proof (eval_episodes_terminates Trainer.num_eval_episode fuel
                (Trainer.action_selector n) step train [] [] None
                (Trainer.with_env w (wrap_deepmind EvalWrap (w_env w)))
                Hfuel) as Hrun.
  destruct (Trainer.eval_episodes _ _ _ _ _ _ _ _ _)
    as [[[rewards [e|]]|err|] w1]; cbn [fst] in *;
    try discriminate.
  exfalso. apply Hrun. reflexivity.
Qed.

End Termination.

End TrainerFacts.

(** ** The training loop: when the memory is read *)

(** C1.  In one iteration of the training loop the replay memory is read
    at most through [optimize_model], and every read happens on a step
    that is a multiple of [policy_network_update], with the memory size
    found at line 201 above the warm-up threshold and the size found by
    the read above it too; when the size at line 201 does not exceed the
    threshold the iteration reads nothing and leaves the policy network
    and the optimizer as they were.  The threshold
    [max(random_exploration_interval - previous_experience, 0)] is 0, and
    a run from an empty memory reaches its first read at step 4 with five
    stored transitions, fewer than [batch_size]. *)
Theorem training_reads_gated_by_warmup :
  (forall (Rng Env Obs Frame Net Opt : Type) (RS : RandomSource Rng)
          (EV : Environment Env Obs) (FC : FrameCodec Obs Frame)
          (QN : QNetwork Net Frame) (OP : Optimizer Opt Net)
          (fuel n : nat) (step : N) (l : Trainer.locals)
          (w : world Rng Env Frame Net Opt),
      ReplayMemory.wf (w_memory w) ->
      exists new,
        w_sample_calls (Trainer.loop_body fuel n step l w).2
        = w_sample_calls w ++ new
        /\ Forall (fun sz =>
                     (Trainer.warmup_threshold < Z.of_nat sz)%Z
                     /\ (Trainer.warmup_threshold
                         < ReplayMemory.len (w_memory w))%Z
                     /\ (step mod Trainer.policy_network_update)%N = 0%N) new
        /\ ((ReplayMemory.len (w_memory w) <= Trainer.warmup_threshold)%Z ->
            new = []
            /\ w_policy (Trainer.loop_body fuel n step l w).2 = w_policy w
            /\ w_optimizer (Trainer.loop_body fuel n step l w).2
               = w_optimizer w))
  /\ Trainer.warmup_threshold = 0%Z
  /\ w_sample_calls
       (Trainer.run_steps 50 2 5 0%N Demo.locals0 Demo.world0).2 = [5]
  /\ (5 < Trainer.batch_size)%Z.
Proof.
  split; [|split; [|split]].
  - intros Rng Env Obs Frame Net Opt RS EV FC QN OP fuel n step l w Hwf.
    apply loop_body_reads_gated, Hwf.
  - reflexivity.
  - vm_compute. reflexivity.
  - reflexivity.
Qed.

Lemma training_reads_gated_by_warmup_witness :
  ReplayMemory.wf (w_memory Demo.world_warm)
  /\ exists new,
       w_sample_calls
         (Trainer.loop_body 50 2 4%N Demo.locals0 Demo.world_warm).2
       = w_sample_calls Demo.world_warm ++ new
       /\ Forall (fun sz =>
                    (Trainer.warmup_threshold < Z.of_nat sz)%Z
                    /\ (Trainer.warmup_threshold
                        < ReplayMemory.len (w_memory Demo.world_warm))%Z
                    /\ (4 mod Trainer.policy_network_update)%N = 0%N) new
       /\ ((ReplayMemory.len (w_memory Demo.world_warm)
            <= Trainer.warmup_threshold)%Z ->
           new = []
           /\ w_policy
                (Trainer.loop_body 50 2 4%N Demo.locals0 Demo.world_warm).2
              = w_policy Demo.world_warm
           /\ w_optimizer
                (Trainer.loop_body 50 2 4%N Demo.locals0 Demo.world_warm).2
              = w_optimizer Demo.world_warm).
Proof.
  assert (Hwf : ReplayMemory.wf (w_memory Demo.world_warm)).
  { apply push_all_wf. split; cbn; lia. }
  split; [exact Hwf|].
  exact (proj1 training_reads_gated_by_warmup nat nat nat nat nat nat
           _ _ _ _ _ 50 2 4%N Demo.locals0 Demo.world_warm Hwf).
Defined.

(** C10.  Called with the training flag false, [optimize_model] returns at
    once and leaves the whole world as it was: the replay memory is not
    sampled, no random number is drawn, and the policy network, the
    target network and the optimizer are unchanged. *)
Theorem optimize_model_without_training_is_identity
    {Rng Env Obs Frame Net Opt : Type} `{!RandomSource Rng}
    `{!Environment Env Obs} `{!FrameCodec Obs Frame} `{!QNetwork Net Frame}
    `{!Optimizer Opt Net} (w : world Rng Env Frame Net Opt) :
  Trainer.optimize_model false w = (Returned tt, w)
  /\ w_sample_calls (Trainer.optimize_model false w).2 = w_sample_calls w
  /\ w_rng (Trainer.optimize_model false w).2 = w_rng w
  /\ w_memory (Trainer.optimize_model false w).2 = w_memory w
  /\ w_policy (Trainer.optimize_model false w).2 = w_policy w
  /\ w_target (Trainer.optimize_model false w).2 = w_target w
  /\ w_optimizer (Trainer.optimize_model false w).2 = w_optimizer w.
Proof. repeat split; reflexivity. Qed.

(** ** The training loop: what [select_action] is called with *)

(** C9.  Every iteration of the training loop calls [select_action], and
    every call it makes, directly or through [evaluate], passes the global
    step [step + previous_experience] together with the flag of line 201.
    Over any run each recorded call therefore has a global step of at
    least [previous_experience] = 100000, above
    [random_exploration_interval] = 10000, outside the warm-up window of
    the selector, so that the forced-random override is taken exactly
    when the flag is false. *)
Theorem training_calls_lie_outside_warmup_window :
  (forall (Rng Env Obs Frame Net Opt : Type) (RS : RandomSource Rng)
          (EV : Environment Env Obs) (FC : FrameCodec Obs Frame)
          (QN : QNetwork Net Frame) (OP : Optimizer Opt Net)
          (fuel n : nat) (step : N) (l : Trainer.locals)
          (w : world Rng Env Frame Net Opt),
      exists rest,
        w_select_calls (Trainer.loop_body fuel n step l w).2
        = w_select_calls w
          ++ ((step + Trainer.previous_experience)%N,
              Trainer.training_flag_of (ReplayMemory.len (w_memory w)))
             :: rest
        /\ Forall (fun call =>
                     call = ((step + Trainer.previous_experience)%N,
                             Trainer.training_flag_of
                               (ReplayMemory.len (w_memory w)))) rest)
  /\ (forall (Rng Env Obs Frame Net Opt : Type) (RS : RandomSource Rng)
             (EV : Environment Env Obs) (FC : FrameCodec Obs Frame)
             (QN : QNetwork Net Frame) (OP : Optimizer Opt Net)
             (fuel n count : nat) (step : N) (l : Trainer.locals)
             (w : world Rng Env Frame Net Opt),
         exists new,
           w_select_calls (Trainer.run_steps fuel n count step l w).2
           = w_select_calls w ++ new
           /\ Forall (fun call =>
                        (100000 <= call.1)%N
                        /\ (Trainer.random_exploration_interval < call.1)%N
                        /\ ActionSelector.warmup_window
                             (Trainer.action_selector n) call.1 = false
                        /\ ActionSelector.forced_random
                             (Trainer.action_selector n) call.1 call.2
                           = negb call.2) new)
  /\ Trainer.previous_experience = 100000%N
  /\ Trainer.random_exploration_interval = 10000%N.
Proof.
  split; [|split; [|split; reflexivity]].
  - intros Rng Env Obs Frame Net Opt RS EV FC QN OP fuel n step l w.
    apply loop_body_calls.
  - intros Rng Env Obs Frame Net Opt RS EV FC QN OP fuel n count step l w.
    apply run_steps_selects. intros k flag. cbn [fst snd].
    assert (Hlt : (Trainer.random_exploration_interval
                   < k + Trainer.previous_experience)%N).
    { unfold Trainer.random_exploration_interval, Trainer.previous_experience.
      lia. }
    split; [unfold Trainer.previous_experience; lia|].
    split; [exact Hlt|].
    assert (Hwin : ActionSelector.warmup_window (Trainer.action_selector n)
                     (k + Trainer.previous_experience) = false).
    { unfold ActionSelector.warmup_window, Trainer.action_selector.
      cbn [ActionSelector.n_warmup]. apply N.ltb_ge. lia. }
    split; [exact Hwin|].
    unfold ActionSelector.forced_random. rewrite Hwin. reflexivity.
Qed.

(** ** The optimisation step *)

(** The targets of line 125, entry by entry, in closed form. *)
Lemma expected_values_closed_form (t : list Q) (ds : list bool)
    (rs : list Q) :
  Trainer.expected_state_action_values t ds rs
  = zip_with (fun (td : Q * bool) (r : Q) =>
                td.1 * (99 # 100) * (1 - (if td.2 then 1 else 0)) + r)%Q
             (zip t ds) rs.
Proof.
  revert ds rs. induction t as [|t0 t IH]; intros [|d ds] [|r rs];
    try reflexivity.
  cbn [Trainer.expected_state_action_values zip zip_with].
  rewrite IH. reflexivity.
Qed.

Lemma clip_saturates (x : Q) :
  ((x <= -1)%Q -> Qmin (Qmax x (-1)) 1 == -1)
  /\ ((1 <= x)%Q -> Qmin (Qmax x (-1)) 1 == 1)
  /\ ((-1 <= x <= 1)%Q -> Qmin (Qmax x (-1)) 1 == x).
Proof.
  split; [|split].
  - intros Hlow.
    rewrite (Q.max_r x (-1) Hlow). apply Q.min_l. discriminate.
  - intros Hhigh.
    assert (Hle : (-1 <= x)%Q) by (eapply Qle_trans; [|exact Hhigh]; discriminate).
    rewrite (Q.max_l x (-1) Hle). apply Q.min_r. exact Hhigh.
  - intros [Hlo Hhi].
    rewrite (Q.max_l x (-1) Hlo). apply Q.min_l. exact Hhi.
Qed.

Lemma huber_cases (d : Q) :
  let h := if Qle_bool 1 (Qabs d) then (Qabs d - (1 # 2))%Q
           else ((1 # 2) * d * d)%Q in
  ((Qabs d < 1)%Q -> h == d * d / 2)
  /\ ((1 <= Qabs d)%Q -> h == Qabs d - (1 # 2)).
Proof.
  cbv zeta. destruct (Qle_bool 1 (Qabs d)) eqn:Hcmp; split; intros Hd.
  - apply Qle_bool_iff in Hcmp. exfalso.
    apply (Qlt_irrefl 1). eapply Qle_lt_trans; eassumption.
  - reflexivity.
  - field.
  - apply Qle_bool_iff in Hd. congruence.
Qed.

(** C7.  Once [memory.sample] has returned a batch (and the two forward
    passes have the shapes the gather and the row maximum need),
    [optimize_model] ends normally after one optimizer step, and that
    step is fed the gradient of the smooth L1 loss between the policy
    network's value of the taken action and the Bellman target, with every
    component clamped to [-1, 1].  Everything is spelled out here: the
    target of a batch entry is [reward + 0.99 * max_a
    target_network(next_state)[a]] for a transition that is not terminal
    and [reward] alone for a terminal one, the maximum being an entry of
    the target network's output that bounds all of them; the loss is the
    mean over the batch of [d^2 / 2] where [|d| < 1] and [|d| - 1/2]
    elsewhere, [d] being prediction minus target; and the clamp sends a
    component below [-1] to [-1], one above [1] to [1] and keeps the
    others. *)
Theorem optimize_model_bellman_huber_clipped
    {Rng Env Obs Frame Net Opt : Type} `{!RandomSource Rng}
    `{!Environment Env Obs} `{!FrameCodec Obs Frame} `{!QNetwork Net Frame}
    `{!Optimizer Opt Net} (w : world Rng Env Frame Net Opt)
    (b : ReplayMemory.batch Frame) (g' : Rng) (q t : list Q) :
  ReplayMemory.sample (w_memory w) Trainer.batch_size (w_rng w) = (Ok b, g') ->
  Trainer.q_values (w_policy w) b = Ok q ->
  Trainer.t_values (w_target w) b = Ok t ->
  let huber := fun d : Q =>
    if Qle_bool 1 (Qabs d) then (Qabs d - (1 # 2))%Q
    else ((1 # 2) * d * d)%Q in
  let mean_huber := fun input target : list Q =>
    (fold_right Qplus 0 (zip_with (fun x y => huber (x - y)) input target)
     / inject_Z (Z.of_nat (length input)))%Q in
  let targets :=
    zip_with (fun (td : Q * bool) (r : Q) =>
                td.1 * (99 # 100) * (1 - (if td.2 then 1 else 0)) + r)%Q
             (zip t (ReplayMemory.b_done b)) (ReplayMemory.b_reward b) in
  let loss := fun net : Net =>
    mean_huber
      (zip_with (fun s a => default 0%Q (forward net s !! a))
                (ReplayMemory.b_state b) (ReplayMemory.b_action b))
      targets in
  let clipped :=
    map (fun x : Q => Qmin (Qmax x (-1)) 1) (backward loss (w_policy w)) in
  (* the run: one optimizer step on the clipped gradients *)
  Trainer.optimize_model true w
  = (Returned tt,
     World (w_env w) g' (w_memory w)
           (opt_step (w_optimizer w) (w_policy w) clipped).2 (w_target w)
           (opt_step (w_optimizer w) (w_policy w) clipped).1 (w_files w)
           (w_score_log w)
           (w_sample_calls w ++ [ReplayMemory.size (w_memory w)])
           (w_select_calls w))
  (* the targets *)
  /\ (forall j s (d : bool) (r : Q),
        ReplayMemory.b_next_state b !! j = Some s ->
        ReplayMemory.b_done b !! j = Some d ->
        ReplayMemory.b_reward b !! j = Some r ->
        exists tmax y : Q,
          In tmax (forward (w_target w) s)
          /\ Forall (fun v => (v <= tmax)%Q) (forward (w_target w) s)
          /\ targets !! j = Some y
          /\ y == (if d then r else (r + (99 # 100) * tmax)%Q))
  (* the loss: its pieces, and its value at the current parameters *)
  /\ (forall d : Q,
        ((Qabs d < 1)%Q -> huber d == d * d / 2)
        /\ ((1 <= Qabs d)%Q -> huber d == Qabs d - (1 # 2)))
  /\ loss (w_policy w) = mean_huber q targets
  /\ length q = length (ReplayMemory.b_state b)
  /\ (forall j s a,
        ReplayMemory.b_state b !! j = Some s ->
        ReplayMemory.b_action b !! j = Some a ->
        exists v, forward (w_policy w) s !! a = Some v /\ q !! j = Some v)
  (* the clipping *)
  /\ length clipped = length (backward loss (w_policy w))
  /\ Forall (fun x => (-1 <= x <= 1)%Q) clipped
  /\ (forall j x,
        backward loss (w_policy w) !! j = Some x ->
        exists c,
          clipped !! j = Some c
          /\ ((x <= -1)%Q -> c == -1)
          /\ ((1 <= x)%Q -> c == 1)
          /\ ((-1 <= x <= 1)%Q -> c == x)).
Proof.
  intros Hsample Hq Ht huber mean_huber targets loss clipped.
  assert (Htargets :
    Trainer.expected_state_action_values t (ReplayMemory.b_done b)
      (ReplayMemory.b_reward b) = targets)
    by apply expected_values_closed_form.
  split; [|split; [|split; [|split; [|split; [|split; [|split; [|split]]]]]]].
  - rewrite (optimize_model_on w b g' q t Hsample Hq Ht).
    cbv zeta. rewrite Htargets. reflexivity.
  - intros j s d r Hs Hd Hr.
    pose proof (rmapM_inv _ _ _ Ht) as Hall.
    destruct (Forall2_lookup_l _ _ _ _ _ Hall Hs) as (tmax & Htj & Hmax).
    destruct (row_max_spec _ _ Hmax) as [Hin Hbound].
    exists tmax, (Trainer.bellman tmax d r).
    split; [exact Hin|]. split; [exact Hbound|]. split.
    + rewrite <- Htargets. apply expected_lookup; assumption.
    + unfold Trainer.bellman, Trainer.gamma, Trainer.Q_of_bool.
      destruct d; ring.
  - intros d. apply huber_cases.
  - subst loss. cbn beta. f_equal. apply gathered_rows, Hq.
  - pose proof (rmapM_inv _ _ _ Hq) as Hall.
    rewrite <- (Forall2_length _ _ _ Hall), length_zip_with.
    pose proof (rmapM_inv _ _ _ Hq) as Hall'.
    clear Hall'.
    assert (Hlen : length (ReplayMemory.b_state b)
                   <= length (ReplayMemory.b_action b)
            \/ length (ReplayMemory.b_action b)
               < length (ReplayMemory.b_state b)) by lia.
    destruct Hlen as [Hle|Hlt]; [lia|].
    (* a state without an action cannot be gathered: the batch lists
       have the same length by construction of [sample] *)
    exfalso. revert Hlt.
    unfold ReplayMemory.sample in Hsample.
    destruct ((Trainer.batch_size <=? 0)%Z
              || (ReplayMemory.len (w_memory w) <? Trainer.batch_size)%Z);
      [discriminate|].
    destruct (rs_draws (w_rng w) (ReplayMemory.size (w_memory w))
                (Z.to_nat Trainer.batch_size)) as [idx g0].
    destruct (rmapM (ReplayMemory.slot (w_memory w)) idx) as [xs|e];
      [|discriminate].
    cbn [rbind] in Hsample. injection Hsample as <- _.
    cbn [ReplayMemory.b_state ReplayMemory.b_action ReplayMemory.batch_of].
    rewrite !length_map. lia.
  - intros j s a Hs Ha.
    pose proof (rmapM_inv _ _ _ Hq) as Hall.
    assert (Hz : zip (ReplayMemory.b_state b) (ReplayMemory.b_action b) !! j
                 = Some (s, a)).
    { apply lookup_zip_with_Some. exists s, a. auto. }
    destruct (Forall2_lookup_l _ _ _ _ _ Hall Hz) as (v & Hqj & Hrow).
    cbn beta iota in Hrow. unfold Trainer.gather_row in Hrow.
    destruct (forward (w_policy w) s !! a) as [v'|]; [|discriminate].
    injection Hrow as ->. exists v. split; [reflexivity | exact Hqj].
  - subst clipped. apply length_map.
  - apply (clip_gradients_bounds (backward loss (w_policy w))).
  - intros j x Hx. exists (Qmin (Qmax x (-1)) 1). split.
    + subst clipped. rewrite list_lookup_fmap, Hx. reflexivity.
    + apply clip_saturates.
Qed.

Lemma optimize_model_bellman_huber_clipped_witness :
  ReplayMemory.sample (w_memory Demo.world_warm) Trainer.batch_size
    (w_rng Demo.world_warm) = (Ok Demo.batch_warm, 32)
  /\ Trainer.q_values (w_policy Demo.world_warm) Demo.batch_warm
     = Ok Demo.q_warm
  /\ Trainer.t_values (w_target Demo.world_warm) Demo.batch_warm
     = Ok Demo.t_warm
  /\ length Demo.q_warm = 32
  /\ exists w',
       Trainer.optimize_model true Demo.world_warm = (Returned tt, w')
       /\ w_sample_calls w' = [40]
       /\ w_optimizer w' = 1.
Proof.
  assert (Hs : ReplayMemory.sample (w_memory Demo.world_warm)
                 Trainer.batch_size (w_rng Demo.world_warm)
               = (Ok Demo.batch_warm, 32)) by (vm_compute; reflexivity).
  assert (Hq : Trainer.q_values (w_policy Demo.world_warm) Demo.batch_warm
               = Ok Demo.q_warm) by (vm_compute; reflexivity).
  assert (Ht : Trainer.t_values (w_target Demo.world_warm) Demo.batch_warm
               = Ok Demo.t_warm) by (vm_compute; reflexivity).
  split; [exact Hs|]. split; [exact Hq|]. split; [exact Ht|].
  split; [reflexivity|].
  eexists. split.
  - exact (proj1 (optimize_model_bellman_huber_clipped Demo.world_warm
                    Demo.batch_warm 32 Demo.q_warm Demo.t_warm Hs Hq Ht)).
  - split; reflexivity.
Defined.

(** ** Loading a checkpoint *)

Section LoadingFacts.

Context {Rng Env Obs Frame Net : Type}.
Context `{!RandomSource Rng} `{!Environment Env Obs} `{!FrameCodec Obs Frame}
        `{!QNetwork Net Frame}.

(** The renderer's loader raises when the path names no file. *)
Lemma renderer_loader_raises (files : gmap string Net) (model : Net)
    (path : string) :
  files !! path = None ->
  Renderer.load_pretrained_model files model path = Raise FileNotFoundError.
Proof. intros Hnone. unfold Renderer.load_pretrained_model. now rewrite Hnone. Qed.

(** The trainer's loader never raises: it tries the pretrained path, then
    the path of the last training run, then initialises from scratch. *)
Lemma trainer_loader_falls_back (files : gmap string Net) (model : Net) :
  files !! Trainer.pretrained_policy_path = None ->
  (forall state_dict,
      files !! Trainer.new_policy_path = Some state_dict ->
      Trainer.load_pretrained_model files model = Ok state_dict)
  /\ (files !! Trainer.new_policy_path = None ->
      Trainer.load_pretrained_model files model = Ok (init_weights model)).
Proof.
  intros Hnone. unfold Trainer.load_pretrained_model. rewrite Hnone.
  split; [intros sd Hsd | intros Hnew]; [rewrite Hsd | rewrite Hnew];
    reflexivity.
Qed.

Lemma trainer_loader_total (files : gmap string Net) (model : Net) :
  exists net, Trainer.load_pretrained_model files model = Ok net.
Proof.
  unfold Trainer.load_pretrained_model.
  destruct (files !! Trainer.pretrained_policy_path); [eexists; reflexivity|].
  destruct (files !! Trainer.new_policy_path); eexists; reflexivity.
Qed.

(** The renderer's [main] does not depend on the files on disk. *)
Lemma renderer_main_ignores_files (fuel : nat) (env_raw : Env) (g : Rng)
    (files files' : gmap string Net) :
  Renderer.main fuel env_raw g files = Renderer.main fuel env_raw g files'.
Proof. reflexivity. Qed.

End LoadingFacts.

(** C8, at the input where the code departs from it.  With no checkpoint
    on disk the renderer's loader does raise [FileNotFoundError] and the
    trainer's loader falls back to [init_weights]; but the renderer's
    [main] never calls its loader (line 105 is commented out), so with no
    file at all it runs to the end on the freshly constructed network and
    returns the frames of the best episode. *)
Theorem renderer_main_runs_without_checkpoint :
  Renderer.load_pretrained_model (∅ : gmap string nat) (dqn_new 2)
    Renderer.pretrained_policy_path = Raise FileNotFoundError
  /\ Trainer.load_pretrained_model (∅ : gmap string nat) (dqn_new 2)
     = Ok (init_weights (dqn_new 2))
  /\ (Renderer.main 50 0 0 (∅ : gmap string nat)).1
     = Returned (0, [10; 11; 12])
  /\ (forall files : gmap string nat,
        Renderer.main 50 0 0 files = Renderer.main 50 0 0 ∅).
Proof.
  split; [reflexivity|]. split; [reflexivity|].
  split; [vm_compute; reflexivity|].
  intros files. apply renderer_main_ignores_files.
Qed.

(** ** The window the loop stores *)

(** Lines 204-213: once the frame window is full, the sequence pushed
    after the step splits into the state that was given to
    [select_action] (its first four frames) and the state of the next
    iteration (its last four frames). *)
Lemma pushed_window_slices {A : Type} (fs : list A) (x : A) :
  length fs = Trainer.frame_stack_size ->
  length (deque_append Trainer.frame_stack_size fs x)
  = Trainer.frame_stack_size
  /\ ReplayMemory.state_of 4 (deque_append Trainer.frame_stack_size fs x)
     = drop 1 fs
  /\ ReplayMemory.next_state_of 4
       (deque_append Trainer.frame_stack_size fs x)
     = drop 1 (deque_append Trainer.frame_stack_size fs x).
Proof.
  intros Hlen.
  destruct fs as [|a [|b [|c [|d [|e [|f fs]]]]]]; try discriminate.
  repeat split; reflexivity.
Qed.

(** ** The extra properties, run on the demo instance *)

Lemma checkpoint_resumes_training_witness :
  w_files Demo.world_warm !! Trainer.pretrained_policy_path = None
  /\ (4 mod Trainer.policy_saving_frequency)%N = 0%N
  /\ Trainer.loop_body 50 2 4%N Demo.locals0 Demo.world_warm
     = (Returned (Demo.locals1 1),
        (Trainer.loop_body 50 2 4%N Demo.locals0 Demo.world_warm).2)
  /\ Trainer.load_pretrained_model
       (w_files (Trainer.loop_body 50 2 4%N Demo.locals0 Demo.world_warm).2)
       7
     = Ok (w_policy
             (Trainer.loop_body 50 2 4%N Demo.locals0 Demo.world_warm).2).
Proof.
  assert (Hrun : Trainer.loop_body 50 2 4%N Demo.locals0 Demo.world_warm
                 = (Returned (Demo.locals1 1),
                    (Trainer.loop_body 50 2 4%N Demo.locals0
                       Demo.world_warm).2))
    by (vm_compute; reflexivity).
  split; [reflexivity|]. split; [reflexivity|]. split; [exact Hrun|].
  exact (proj2 (checkpoint_resumes_training 50 2 4%N Demo.locals0
                  Demo.world_warm _ (Demo.locals1 1) 7 eq_refl eq_refl Hrun)).
Defined.

Lemma pretrained_file_shadows_checkpoints_witness :
  w_files Demo.world_pre !! Trainer.pretrained_policy_path = Some 9
  /\ Trainer.load_pretrained_model
       (w_files (Trainer.run_steps 50 2 3 0%N Demo.locals0 Demo.world_pre).2)
       7
     = Ok 9.
Proof.
  split; [reflexivity|].
  exact (proj2 (proj2 (pretrained_file_shadows_checkpoints 50 2 3 0%N
                         Demo.locals0 Demo.world_pre 9 7 eq_refl))).
Defined.

Lemma iteration_stores_one_transition_witness :
  Trainer.loop_body 50 2 4%N Demo.locals0 Demo.world_warm
  = (Returned (Demo.locals1 1),
     (Trainer.loop_body 50 2 4%N Demo.locals0 Demo.world_warm).2)
  /\ exists action reward,
       w_memory (Trainer.loop_body 50 2 4%N Demo.locals0 Demo.world_warm).2
       = ReplayMemory.push (w_memory Demo.world_warm) [6; 7; 8; 9; 11]
           action reward false.
Proof.
  assert (Hrun : Trainer.loop_body 50 2 4%N Demo.locals0 Demo.world_warm
                 = (Returned (Demo.locals1 1),
                    (Trainer.loop_body 50 2 4%N Demo.locals0
                       Demo.world_warm).2))
    by (vm_compute; reflexivity).
  split; [exact Hrun|].
  exact (proj1 (iteration_stores_one_transition 50 2 4%N Demo.locals0
                  Demo.world_warm _ (Demo.locals1 1) Hrun)).
Defined.

Lemma frame_window_stays_full_witness :
  (Trainer.done Demo.locals0 = true
   \/ length (Trainer.frame_stack Demo.locals0) = Trainer.frame_stack_size)
  /\ Trainer.run_steps 50 2 3 0%N Demo.locals0 Demo.world0
     = (Returned (Demo.locals1 2),
        (Trainer.run_steps 50 2 3 0%N Demo.locals0 Demo.world0).2)
  /\ length (Trainer.frame_stack (Demo.locals1 2)) = Trainer.frame_stack_size.
Proof.
  assert (Hrun : Trainer.run_steps 50 2 3 0%N Demo.locals0 Demo.world0
                 = (Returned (Demo.locals1 2),
                    (Trainer.run_steps 50 2 3 0%N Demo.locals0
                       Demo.world0).2))
    by (vm_compute; reflexivity).
  split; [left; reflexivity|]. split; [exact Hrun|].
  refine (proj1 (proj2 (frame_window_stays_full 50 2 3 0%N Demo.locals0
                          Demo.world0 _ (Demo.locals1 2)
                          (or_introl eq_refl) Hrun) _)).
  lia.
Defined.

(** ** The renderer *)

Section RendererFacts.

Context {Rng Env Obs Frame Net : Type}.
Context `{!RandomSource Rng} `{!Environment Env Obs} `{!FrameCodec Obs Frame}
        `{!QNetwork Net Frame}.

Lemma run_bind {W A B} (c : M W A) (k : A -> M W B) (w w1 : W) (a : A) :
  c w = (Returned a, w1) -> bind c k w = k a w1.
Proof. intros Hc. unfold bind. rewrite Hc. reflexivity. Qed.

(** The scan behind [argmax] and [index_of_max], over the whole list:
    [pre] is the part already seen, [b] at [bi] the best entry in it. *)
Lemma argmax_from_spec (pre l : list Q) (bi : nat) (b : Q) :
  pre !! bi = Some b ->
  Forall (fun v => (v <= b)%Q) pre ->
  (forall j v, j < bi -> pre !! j = Some v -> (v < b)%Q) ->
  exists m,
    (pre ++ l) !! argmax_from bi b (length pre) l = Some m
    /\ Forall (fun v => (v <= m)%Q) (pre ++ l)
    /\ (forall j v,
          j < argmax_from bi b (length pre) l ->
          (pre ++ l) !! j = Some v -> (v < m)%Q).
Proof.
  revert pre bi b. induction l as [|x xs IH]; intros pre bi b Hbi Hall Hfirst.
  - simpl. rewrite app_nil_r. exists b. repeat split; assumption.
  - simpl.
    assert (Hlen : bi < length pre) by (eapply lookup_lt_Some; exact Hbi).
    replace (pre ++ x :: xs) with ((pre ++ [x]) ++ xs)
      by (rewrite <- app_assoc; reflexivity).
    replace (S (length pre)) with (length (pre ++ [x]))
      by (rewrite length_app; simpl; lia).
    destruct (Qle_bool x b) eqn:Hcmp.
    + apply Qle_bool_iff in Hcmp. apply IH.
      * rewrite lookup_app_l by exact Hlen. exact Hbi.
      * apply Forall_app. split; [exact Hall | repeat constructor; exact Hcmp].
      * intros j v Hj Hv. rewrite lookup_app_l in Hv by lia.
        eapply Hfirst; eassumption.
    + assert (Hlt : (b < x)%Q).
      { apply Qnot_le_lt. intros Hle. apply Qle_bool_iff in Hle. congruence. }
      apply IH.
      * rewrite lookup_app_r by lia. rewrite Nat.sub_diag. reflexivity.
      * apply Forall_app. split; [|repeat constructor; apply Qle_refl].
        eapply Forall_impl; [exact Hall|]. intros v Hv. cbn beta in *.
        apply Qlt_le_weak. eapply Qle_lt_trans; eassumption.
      * intros j v Hj Hv. rewrite lookup_app_l in Hv by exact Hj.
        eapply Qle_lt_trans; [|exact Hlt].
        apply (proj1 (Forall_lookup _ _) Hall j v Hv).
Qed.

Lemma index_of_max_ok (l : list Q) (r : nat) :
  Renderer.index_of_max l = Ok r ->
  exists m,
    l !! r = Some m
    /\ Forall (fun v => (v <= m)%Q) l
    /\ (forall j v, j < r -> l !! j = Some v -> (v < m)%Q).
Proof.
  destruct l as [|x xs]; simpl; [discriminate|].
  intros Hr. injection Hr as <-.
  apply (argmax_from_spec [x] xs 0 x).
  - reflexivity.
  - repeat constructor. apply Qle_refl.
  - intros j v Hj. lia.
Qed.

(** X12.  [episodes_rewards.index(max(episodes_rewards))] picks the first
    episode among those with the highest reward: on an empty list it
    raises [ValueError]; on any other list it returns a position holding
    an entry that bounds every entry, with every earlier entry strictly
    smaller. *)
Theorem index_of_max_is_first_maximum :
  Renderer.index_of_max [] = Raise ValueError
  /\ (forall x xs, exists r, Renderer.index_of_max (x :: xs) = Ok r)
  /\ (forall (l : list Q) (r : nat),
        Renderer.index_of_max l = Ok r ->
        exists m,
          l !! r = Some m
          /\ Forall (fun v => (v <= m)%Q) l
          /\ (forall j v, j < r -> l !! j = Some v -> (v < m)%Q)).
Proof.
  split; [reflexivity|]. split.
  - intros x xs. eexists. reflexivity.
  - apply index_of_max_ok.
Qed.

(** *** A rendering in which no episode takes a step *)

Section NoStep.

Hypothesis always_done : forall e, (env_step EvalWrap e 0).2.2 = true.

Lemma renderer_noop_done_after n fs (w : Env * Rng) :
  exists fs' w1, Renderer.noop_steps n fs true w = (Returned (fs', true), w1).
Proof.
  revert fs w. induction n as [|n IH]; intros fs w; simpl.
  - exists fs, w. reflexivity.
  - unfold bind, Renderer.do_step.
    pose proof (always_done w.1) as Hd.
    destruct (env_step EvalWrap w.1 0) as [e [[pixels reward] d]].
    cbn [snd] in Hd. subst d. apply IH.
Qed.

Lemma renderer_noop_done n fs d (w : Env * Rng) :
  exists fs' w1,
    Renderer.noop_steps (S n) fs d w = (Returned (fs', true), w1).
Proof.
  simpl. unfold bind, Renderer.do_step.
  pose proof (always_done w.1) as Hd.
  destruct (env_step EvalWrap w.1 0) as [e [[pixels reward] d']].
  cbn [snd] in Hd. subst d'. apply renderer_noop_done_after.
Qed.

Lemma play_done fuel (net : Net) na fs frames reward (w : Env * Rng) :
  Renderer.play fuel net na fs true frames reward w
  = (Returned (fs, frames, reward), w).
Proof. destruct fuel; reflexivity. Qed.

Lemma episodes_no_step n fuel (net : Net) na fs gif rewards (w : Env * Rng) :
  exists w1,
    Renderer.episodes n fuel net na fs gif rewards w
    = (Returned (gif ++ replicate n [], rewards ++ replicate n 0%Q), w1).
Proof.
  revert fs gif rewards w.
  induction n as [|n IH]; intros fs gif rewards w.
  - exists w. simpl. rewrite !app_nil_r. reflexivity.
  - cbn [Renderer.episodes].
    rewrite (run_bind Renderer.do_reset _ w _ tt eq_refl).
    destruct (renderer_noop_done 9 fs false
                ((env_reset EvalWrap w.1).1, w.2)) as (fs1 & w1 & Hnoop).
    rewrite (run_bind _ _ _ _ _ Hnoop). cbv beta iota.
    rewrite (run_bind _ _ _ _ _ (play_done fuel net na fs1 [] 0%Q w1)).
    cbv beta iota.
    destruct (IH fs1 (gif ++ [[]]) (rewards ++ [0%Q]) w1) as (w2 & Hrun).
    exists w2. rewrite Hrun. simpl. rewrite <- !app_assoc. reflexivity.
Qed.

(** X13.  When the emulator reports the end of the episode on every no-op
    step, every rendered episode is empty and the renderer's [evaluate]
    cannot produce its GIF: with at least one episode, taking the first
    frame of the best episode raises [IndexError]; with no episode at all
    the maximum of the empty reward list raises [ValueError]. *)
Theorem render_without_a_step_raises fuel (net : Net) na num
    (w : Env * Rng) :
  (Renderer.evaluate fuel net na num w).1
  = Raised (match num with 0 => ValueError | S _ => IndexError end).
Proof.
  unfold Renderer.evaluate.
  unfold bind at 1. cbv beta iota.
  destruct (episodes_no_step num fuel net na [] [] []
              (wrap_deepmind EvalWrap w.1, w.2)) as (w1 & Hrun).
  rewrite (run_bind _ _ _ _ _ Hrun). cbv beta iota. cbn [app].
  destruct num as [|k]; [reflexivity|].
  destruct (Renderer.index_of_max (replicate (S k) 0%Q)) as [r|e] eqn:Hmax;
    [|discriminate].
  destruct (index_of_max_ok _ _ Hmax) as (m & Hm & _).
  apply lookup_lt_Some in Hm. rewrite length_replicate in Hm.
  unfold bind, lift, ret.
  rewrite (lookup_replicate_2 (S k) ([] : list Obs) r Hm). reflexivity.
Qed.

End NoStep.

End RendererFacts.


Lemma training_flag_is_memory_nonempty_witness :
  ReplayMemory.wf (w_memory Demo.world0)
  /\ Trainer.training_flag_of (ReplayMemory.len (w_memory Demo.world0))
     = false
  /\ (forall l' w',
        Trainer.loop_body 50 2 0%N Demo.locals0 Demo.world0
        = (Returned l', w') ->
        Trainer.training_flag_of (ReplayMemory.len (w_memory w')) = true).
Proof.
  assert (Hwf : ReplayMemory.wf (w_memory Demo.world0))
    by (split; cbn; lia).
  split; [exact Hwf|]. split; [reflexivity|].
  exact (proj1 (proj2 (training_flag_is_memory_nonempty 50 2 0%N
                         Demo.locals0 Demo.world0 Hwf))).
Defined.

Lemma demo_step_makes_progress (e a : nat) :
  (env_step EvalWrap e a).2.2 = true
  \/ Demo.demo_remaining (env_step EvalWrap e a).1 < Demo.demo_remaining e.
Proof.
  change ((12 <=? e) = true \/ 12 - S e < 12 - e).
  destruct (Nat.leb_spec 12 e); [left; reflexivity | right; lia].
Qed.

Lemma evaluate_terminates_on_bounded_episodes_witness :
  (forall e, Demo.demo_remaining e <= 12)
  /\ 12 < 50
  /\ (Trainer.evaluate 50 100000%N 2 false 1%N Demo.world0).1 <> OutOfFuel.
Proof.
  assert (Hbound : forall e, Demo.demo_remaining e <= 12)
    by (intros e; unfold Demo.demo_remaining; lia).
  split; [exact Hbound|]. split; [lia|].
  apply (evaluate_terminates_on_bounded_episodes Demo.demo_remaining 12
           demo_step_makes_progress Hbound 50 100000%N 2 false 1%N
           Demo.world0).
  lia.
Defined.

Lemma render_without_a_step_raises_witness :
  (forall e : nat,
      (env_step (Environment := Demo.stuck_env) EvalWrap e 0).2.2 = true)
  /\ (Renderer.evaluate (Environment0 := Demo.stuck_env) 50 0 2
        Renderer.num_eval_episode (0, 0)).1
     = Raised IndexError.
Proof.
  split; [intros e; reflexivity|].
  exact (render_without_a_step_raises (Environment0 := Demo.stuck_env)
           (fun e => eq_refl) 50 0 2 Renderer.num_eval_episode (0, 0)).
Defined.

